(** * ElixirFormatter: a shallow embedding of [ElixirFormatter.py]

    The plugin formats Elixir buffers on save by piping the buffer through
    [mix format -].  This file embeds the plugin's Python code as Rocq
    functions and proves properties of it.

    - Python [str] values are lists of Unicode code points.
    - The host (file system, process table, OS environment, editor
      settings, interpreter limits) is a record [Host] that every
      effectful function receives.
    - Code that raises or changes the view runs in a small state and
      exception monad [M] over the editor state [St]: the view, and the
      log of what the plugin printed, started and called on the view. *)

From Stdlib Require Import ZArith NArith List Bool Ascii String Lia.
From stdpp Require Import base option list gmap.
Import ListNotations.

Local Open Scope Z_scope.
Local Open Scope list_scope.

(** ** Python strings *)

Module Py.

(** A code point; a Python 3 [str] is a sequence of them. *)
Definition codepoint := N.
Definition str := list codepoint.

(** A [str] literal written with ASCII characters. *)
Definition u (s : string) : str := map N_of_ascii (list_ascii_of_string s).

Definition NL : codepoint := 10%N.
Definition QUOTE : codepoint := 34%N.
Definition SLASH : codepoint := 47%N.
Definition DOT : codepoint := 46%N.

(** [a == b] on strings. *)
Definition str_eqb (a b : str) : bool := bool_decide (a = b).

(** [s.startswith(p)]. *)
Fixpoint startswith (p s : str) : bool :=
  match p, s with
  | [], _ => true
  | _ :: _, [] => false
  | a :: p', b :: s' => N.eqb a b && startswith p' s'
  end.

(** [sub in s]. *)
Fixpoint contains (sub s : str) : bool :=
  startswith sub s ||
  match s with
  | [] => false
  | _ :: s' => contains sub s'
  end.


(** [s.replace(old, new)]: the non-overlapping occurrences of [old], found
    from the left, are replaced.  [skip] counts the characters of an
    occurrence that are still to be dropped. *)
Fixpoint replace_go (old new : str) (skip : nat) (s : str) : str :=
  match s with
  | [] => []
  | c :: s' =>
      match skip with
      | S k => replace_go old new k s'
      | O =>
          if startswith old s
          then new ++ replace_go old new (Nat.pred (length old)) s'
          else c :: replace_go old new O s'
      end
  end.

Definition replace (old new s : str) : str :=
  match old with
  | [] => new ++ flat_map (fun c => c :: new) s
  | _ :: _ => replace_go old new O s
  end.

(** [s.rfind(c)] for a one-character needle: the last index, or -1. *)
Fixpoint rfind_from (c : codepoint) (s : str) (i : Z) (last : Z) : Z :=
  match s with
  | [] => last
  | x :: s' => rfind_from c s' (i + 1) (if N.eqb x c then i else last)
  end.

Definition rfind (c : codepoint) (s : str) : Z := rfind_from c s 0 (-1).

(** [s.rstrip(c)] for a one-character set. *)
Fixpoint rstrip_char (c : codepoint) (s : str) : str :=
  match s with
  | [] => []
  | x :: s' =>
      match rstrip_char c s' with
      | [] => if N.eqb x c then [] else [x]
      | r => x :: r
      end
  end.

(** [s[:i]] and [s[i:]] for [i >= 0]. *)
Definition upto (i : Z) (s : str) : str := take (Z.to_nat i) s.
Definition from (i : Z) (s : str) : str := drop (Z.to_nat i) s.

(** [sep.join(parts)]. *)
Fixpoint join (sep : str) (parts : list str) : str :=
  match parts with
  | [] => []
  | [p] => p
  | p :: ps => p ++ sep ++ join sep ps
  end.

(** Python truthiness of an optional string: [None] and [''] are false. *)
Definition truthy (o : option str) : bool :=
  match o with
  | Some (_ :: _) => true
  | _ => false
  end.

(** [a or b] where [a] may be [None]. *)
Definition or_else (a : option str) (b : str) : str :=
  match a with
  | Some (c :: s) => c :: s
  | _ => b
  end.

End Py.

Import Py.

(** ** The Unicode tables of the plugin host

    Sublime Text 3 runs plugins on Python 3.3, whose [re] and [int] use the
    Unicode 6.1.0 character database. *)

Module Unicode.

Definition between (lo hi c : codepoint) : bool := (N.leb lo c && N.leb c hi)%N.

(** [Py_UNICODE_ISSPACE]: what the pattern atom [\s] accepts. *)
Definition is_space (c : codepoint) : bool :=
  (between 0x09 0x0D c || between 0x1C 0x1F c || N.eqb c 0x20 ||
   N.eqb c 0x85 || N.eqb c 0xA0 || N.eqb c 0x1680 || N.eqb c 0x180E ||
   between 0x2000 0x200A c || N.eqb c 0x2028 || N.eqb c 0x2029 ||
   N.eqb c 0x202F || N.eqb c 0x205F || N.eqb c 0x3000)%N.

(** The code points of the digit zero of every script with decimal digits;
    the nine code points after each are its digits one to nine. *)
Definition decimal_zeros : list codepoint :=
  [ 0x0030; 0x0660; 0x06F0; 0x07C0; 0x0966; 0x09E6; 0x0A66; 0x0AE6;
    0x0B66; 0x0BE6; 0x0C66; 0x0CE6; 0x0D66; 0x0E50; 0x0ED0; 0x0F20;
    0x1040; 0x1090; 0x17E0; 0x1810; 0x1946; 0x19D0; 0x1A80; 0x1A90;
    0x1B50; 0x1BB0; 0x1C40; 0x1C50; 0xA620; 0xA8D0; 0xA900; 0xA9D0;
    0xAA50; 0xABF0; 0xFF10; 0x104A0; 0x11066; 0x110F0; 0x11136; 0x111D0;
    0x116C0; 0x1D7CE; 0x1D7D8; 0x1D7E2; 0x1D7EC; 0x1D7F6 ]%N.

(** [Py_UNICODE_TODECIMAL]: the value of a decimal digit. *)
Fixpoint to_decimal_in (zeros : list codepoint) (c : codepoint) : option Z :=
  match zeros with
  | [] => None
  | z :: zs =>
      if between z (z + 9)%N c then Some (Z.of_N (c - z)%N) else to_decimal_in zs c
  end.

Definition to_decimal (c : codepoint) : option Z := to_decimal_in decimal_zeros c.

(** [Py_UNICODE_ISDECIMAL]: what the pattern atom [\d] accepts. *)
Definition is_decimal (c : codepoint) : bool :=
  match to_decimal c with Some _ => true | None => false end.

End Unicode.

(** ** The regular-expression engine

    A backtracking matcher for the fragment of [re] the plugin uses: literal
    characters, character classes, greedy [+] over a class, the anchors of
    [re.MULTILINE] and [\Z], and capture groups.  Alternatives are tried in
    the order of [sre]: a greedy [+] takes the longest run first and gives
    characters back one at a time; [search] tries start positions from the
    left. *)

Module Re.

Inductive item : Type :=
| Lit (c : codepoint)              (* a literal character *)
| Cls (p : codepoint -> bool)      (* one character of a class *)
| Plus (p : codepoint -> bool)     (* [cls+], greedy *)
| Bol                              (* [^] under MULTILINE *)
| Eol                              (* [$] under MULTILINE *)
| EndZ                             (* [\Z] *)
| Open (n : nat)                   (* start of group [n] *)
| Close (n : nat).                 (* end of group [n] *)

Definition pattern := list item.

(** The mark table of [sre]: mark [2n] is the start of group [n], mark
    [2n+1] its end; the newest entry for a mark is the valid one. *)
Definition marks := list (nat * nat).

Fixpoint mark (ms : marks) (i : nat) : option nat :=
  match ms with
  | [] => None
  | (j, p) :: ms' => if Nat.eqb i j then Some p else mark ms' i
  end.

(** The first success among [f k, f (k-1), ..., f 1]. *)
Fixpoint first_down {A} (f : nat -> option A) (k : nat) : option A :=
  match k with
  | O => None
  | S k' =>
      match f k with
      | Some x => Some x
      | None => first_down f k'
      end
  end.

(** The length of the longest prefix of [s] inside the class [p]. *)
Fixpoint span_len (p : codepoint -> bool) (s : str) : nat :=
  match s with
  | c :: s' => if p c then S (span_len p s') else O
  | [] => O
  end.

Definition any_but_newline (c : codepoint) : bool := negb (N.eqb c NL).

Definition at_bol (prev : option codepoint) : bool :=
  match prev with
  | None => true
  | Some c => N.eqb c NL
  end.

Definition at_eol (s : str) : bool :=
  match s with
  | [] => true
  | c :: _ => N.eqb c NL
  end.

(** [match_here pat prev s pos ms]: match [pat] against the text [s] that
    starts at index [pos]; [prev] is the character before [s], if any.
    The result is the index after the match and the marks. *)
Fixpoint match_here (pat : pattern) (prev : option codepoint) (s : str)
    (pos : nat) (ms : marks) : option (nat * marks) :=
  match pat with
  | [] => Some (pos, ms)
  | Lit c :: r =>
      match s with
      | x :: s' => if N.eqb x c then match_here r (Some x) s' (S pos) ms else None
      | [] => None
      end
  | Cls p :: r =>
      match s with
      | x :: s' => if p x then match_here r (Some x) s' (S pos) ms else None
      | [] => None
      end
  | Plus p :: r =>
      first_down
        (fun k => match_here r (last (take k s)) (drop k s) (pos + k)%nat ms)
        (span_len p s)
  | Bol :: r => if at_bol prev then match_here r prev s pos ms else None
  | Eol :: r => if at_eol s then match_here r prev s pos ms else None
  | EndZ :: r =>
      match s with
      | [] => match_here r prev s pos ms
      | _ :: _ => None
      end
  | Open n :: r => match_here r prev s pos ((2 * n, pos)%nat :: ms)
  | Close n :: r => match_here r prev s pos ((2 * n + 1, pos)%nat :: ms)
  end.

(** A match object. *)
Record Match : Type := mkMatch {
  m_string : str;
  m_start : nat;
  m_end : nat;
  m_marks : marks
}.

Definition slice (a b : nat) (s : str) : str := take (b - a) (drop a s).

(** [m.group(n)]; [None] stands for a group that took no part. *)
Definition group (m : Match) (n : nat) : option str :=
  match n with
  | O => Some (slice (m_start m) (m_end m) (m_string m))
  | _ =>
      match mark (m_marks m) (2 * n), mark (m_marks m) (2 * n + 1) with
      | Some a, Some b => Some (slice a b (m_string m))
      | _, _ => None
      end
  end.

(** [pat.search(text)]: the leftmost start position that matches. *)
Fixpoint search_from (pat : pattern) (text : str) (prev : option codepoint)
    (s : str) (start : nat) : option Match :=
  match match_here pat prev s start [] with
  | Some (e, ms) => Some (mkMatch text start e ms)
  | None =>
      match s with
      | [] => None
      | c :: s' => search_from pat text (Some c) s' (S start)
      end
  end.

Definition search (pat : pattern) (text : str) : option Match :=
  search_from pat text None text O.

(** [re.sub(pat, repl, s)] for a replacement without group references.
    [skip] counts the characters of the current match still to be dropped;
    [adj] tells that a match ended at this very position, where [sre]
    ignores an empty match. *)
Fixpoint sub_go (pat : pattern) (repl : str) (skip : nat) (adj : bool)
    (prev : option codepoint) (s : str) : str :=
  match skip with
  | S k =>
      match s with
      | [] => []
      | c :: s' => sub_go pat repl k true (Some c) s'
      end
  | O =>
      match match_here pat prev s O [] with
      | Some (O, _) =>
          (if adj then [] else repl) ++
          match s with
          | [] => []
          | c :: s' => c :: sub_go pat repl O false (Some c) s'
          end
      | Some (S k, _) =>
          repl ++
          match s with
          | [] => []
          | c :: s' => sub_go pat repl k true (Some c) s'
          end
      | None =>
          match s with
          | [] => []
          | c :: s' => c :: sub_go pat repl O false (Some c) s'
          end
      end
  end.

Definition sub (pat : pattern) (repl s : str) : str :=
  sub_go pat repl O false None s.

End Re.

Import Unicode Re.

(** [SYNTAX_ERROR_RE]:
    [^\*\*\s\((.+)\)\s(.+)\:(\d+)\:\s(.+)$] compiled with
    [re.MULTILINE | re.IGNORECASE | re.UNICODE].  The pattern has no cased
    literal, and lowering a character never moves it into or out of [\s],
    [\d] or [.], so [IGNORECASE] changes nothing. *)
Definition SYNTAX_ERROR_RE : pattern :=
  [ Bol; Lit 42; Lit 42; Cls is_space; Lit 40;
    Open 1; Plus any_but_newline; Close 1;
    Lit 41; Cls is_space;
    Open 2; Plus any_but_newline; Close 2;
    Lit 58;
    Open 3; Plus is_decimal; Close 3;
    Lit 58; Cls is_space;
    Open 4; Plus any_but_newline; Close 4;
    Eol ]%N.

(** The pattern [\s+\Z] of [Utils.trim_trailing_ws_and_lines]. *)
Definition TRAILING_WS_RE : pattern := [ Plus is_space; EndZ ].

Definition PLUGIN_NAME : str := u "ElixirFormatter".

(** ** Exceptions, JSON values and the host *)

Inductive exn : Type :=
| AttributeError
| TypeError
| KeyError
| ValueError
| RecursionError            (* maximum recursion depth exceeded *)
| HostError (what : str).   (* raised by the process layer: OSError, UnicodeDecodeError *)

Inductive res (A : Type) : Type :=
| Ok (a : A)
| Raise (e : exn).

Arguments Ok {A} a.
Arguments Raise {A} e.

Definition res_bind {A B} (r : res A) (k : A -> res B) : res B :=
  match r with
  | Ok a => k a
  | Raise e => Raise e
  end.

(** A value of the editor's settings files. *)
#[warnings="-register-all"]
Inductive json : Type :=
| JNull
| JBool (b : bool)
| JNum (n : Z)
| JStr (s : str)
| JList (xs : list json)
| JDict (kvs : list (str * json)).

Fixpoint assoc {V} (k : str) (kvs : list (str * V)) : option V :=
  match kvs with
  | [] => None
  | (k', v) :: kvs' => if str_eqb k k' then Some v else assoc k kvs'
  end.

(** [j[k]] for a string key [k]. *)
Definition subscript (j : json) (k : str) : res json :=
  match j with
  | JDict kvs =>
      match assoc k kvs with
      | Some v => Ok v
      | None => Raise KeyError
      end
  | _ => Raise TypeError
  end.

(** A process to start: the arguments of [subprocess.Popen] and the input
    given to [communicate]. *)
Record Popen : Type := mkPopen {
  p_args : list str;
  p_cwd : str;
  p_env : gmap str str;
  p_stdin : option str;
  p_startupinfo : option Z
}.

Record Indentation : Type := mkIndentation {
  translate_tabs_to_spaces : bool;
  tab_size : Z
}.

(** The state of a view that the plugin reads or changes.  The viewport is
    a position in layout coordinates; the plugin only stores it and hands
    it back. *)
Record View : Type := mkView {
  v_file_name : option str;
  v_syntax : option str;
  v_text : str;
  v_viewport : Z * Z;
  v_caret_line : Z;
  v_indentation : Indentation
}.

(** Everything outside the plugin.  [communicate] stands for
    [Popen(...).communicate(input)] followed by the utf-8 decoding of both
    streams: it gives stdout, stderr and the return code, or the exception
    of that step. *)
Record Host : Type := mkHost {
  fs_exists : str -> bool;                    (* os.path.exists *)
  fs_isfile : str -> bool;                    (* os.path.isfile *)
  getcwd : str;                               (* os.getcwd() *)
  environ : gmap str str;                     (* os.environ *)
  preferences : str -> json;                  (* Preferences.sublime-settings, [JNull] when unset *)
  platform : str;                             (* sublime.platform() *)
  communicate : Popen -> res (str * str * Z);
  recursion_limit : nat;                      (* frames left for find_project *)
  detect : str -> Indentation;                (* the editor's indentation heuristic *)
  reveal : View -> Z -> Z * Z;                (* viewport after the caret moved to a line *)
  relayout : View -> Z * Z                    (* viewport after text or settings changed *)
}.

(** ** The monad of the plugin's effectful code *)

Inductive event : Type :=
| EvPrint (msg : str)                              (* a line on the console *)
| EvStatus (msg : str)                             (* a status-bar message *)
| EvPopen (p : Popen)                              (* a call of subprocess.Popen *)
| EvReplace (region : nat * nat) (text : str)      (* view.replace *)
| EvCommand (name : str) (args : list (str * json)) (* view.run_command of an editor command *)
| EvViewport (p : Z * Z).                          (* view.set_viewport_position *)

Record St : Type := mkSt {
  view : View;
  log : list event     (* oldest first *)
}.

Definition M (A : Type) : Type := St -> res A * St.

Definition ret {A} (a : A) : M A := fun s => (Ok a, s).
Definition raise {A} (e : exn) : M A := fun s => (Raise e, s).
Definition bind {A B} (c : M A) (k : A -> M B) : M B :=
  fun s =>
    match c s with
    | (Ok a, s') => k a s'
    | (Raise e, s') => (Raise e, s')
    end.
Definition lift {A} (r : res A) : M A := fun s => (r, s).
Definition get_view : M View := fun s => (Ok (view s), s).
Definition emit (e : event) : M unit :=
  fun s => (Ok tt, mkSt (view s) (log s ++ [e])).
Definition view_call (e : event) (f : View -> View) : M unit :=
  fun s => (Ok tt, mkSt (f (view s)) (log s ++ [e])).

Declare Scope py_scope.
Delimit Scope py_scope with py.
Notation "x <- c ;; k" := (bind c (fun x => k))
  (at level 100, c at next level, right associativity) : py_scope.
Notation "c ;;; k" := (bind c (fun _ => k))
  (at level 100, right associativity) : py_scope.
Local Open Scope py_scope.

(** [print(msg)]. *)
Definition print (msg : str) : M unit := emit (EvPrint msg).

(** ** The editor API used by the plugin *)

Definition set_text (t : str) (v : View) : View :=
  mkView (v_file_name v) (v_syntax v) t (v_viewport v) (v_caret_line v) (v_indentation v).
Definition set_viewport (p : Z * Z) (v : View) : View :=
  mkView (v_file_name v) (v_syntax v) (v_text v) p (v_caret_line v) (v_indentation v).
Definition set_caret_line (n : Z) (v : View) : View :=
  mkView (v_file_name v) (v_syntax v) (v_text v) (v_viewport v) n (v_indentation v).
Definition set_indentation (i : Indentation) (v : View) : View :=
  mkView (v_file_name v) (v_syntax v) (v_text v) (v_viewport v) (v_caret_line v) i.

(** [view.size()]. *)
Definition view_size : M nat := v <- get_view ;; ret (length (v_text v)).

(** [view.substr(sublime.Region(a, b))]. *)
Definition view_substr (region : nat * nat) : M str :=
  v <- get_view ;; ret (slice (fst region) (snd region) (v_text v)).

(** [view.viewport_position()]. *)
Definition view_viewport_position : M (Z * Z) := v <- get_view ;; ret (v_viewport v).

(** [view.set_viewport_position(p, False)]. *)
Definition view_set_viewport_position (p : Z * Z) : M unit :=
  view_call (EvViewport p) (set_viewport p).

(** [view.replace(edit, sublime.Region(a, b), text)]; the editor lays the
    new text out again. *)
Definition view_replace (h : Host) (region : nat * nat) (t : str) : M unit :=
  view_call (EvReplace region t) (fun v =>
    let v' := set_text (take (fst region) (v_text v) ++ t ++ drop (snd region) (v_text v)) v in
    set_viewport (relayout h v') v').

(** What the editor's own commands do to a view; a name the editor does
    not know does nothing. *)
Definition builtin_effect (h : Host) (name : str) (args : list (str * json)) (v : View) : View :=
  if str_eqb name (u "goto_line") then
    match assoc (u "line") args with
    | Some (JNum n) => set_viewport (reveal h v n) (set_caret_line n v)
    | _ => v
    end
  else if str_eqb name (u "detect_indentation") then
    let v' := set_indentation (detect h (v_text v)) v in
    set_viewport (relayout h v') v'
  else v.

(** [view.run_command(name, args)] for one of the editor's own commands. *)
Definition builtin_command (h : Host) (name : str) (args : list (str * json)) : M unit :=
  view_call (EvCommand name args) (builtin_effect h name args).

(** ** [os.path] on a POSIX host

    Paths follow [posixpath]; the platform test that picks the launcher and
    the path separator is kept as the source has it. *)

Module OsPath.

Definition sep : str := [SLASH].

(** [posixpath.dirname]. *)
Definition dirname (p : str) : str :=
  let i := rfind SLASH p + 1 in
  let head := upto i p in
  if truthy (Some head) && negb (str_eqb head (repeat SLASH (length head)))
  then rstrip_char SLASH head
  else head.

Definition endswith_sep (p : str) : bool :=
  match last p with
  | Some c => N.eqb c SLASH
  | None => false
  end.

(** [posixpath.join(a, b)]. *)
Definition join (a b : str) : str :=
  if startswith sep b then b
  else if negb (truthy (Some a)) || endswith_sep a then a ++ b
  else a ++ sep ++ b.

(** The loop of [genericpath._splitext] that skips leading dots of the file
    name: is there a character other than a dot in [p[i:dot]]? *)
Fixpoint has_non_dot (s : str) : bool :=
  match s with
  | [] => false
  | c :: s' => negb (N.eqb c DOT) || has_non_dot s'
  end.

(** [posixpath.splitext]. *)
Definition splitext (p : str) : str * str :=
  let sepIndex := rfind SLASH p in
  let dotIndex := rfind DOT p in
  if Z.ltb sepIndex dotIndex
  then
    if has_non_dot (slice (Z.to_nat (sepIndex + 1)) (Z.to_nat dotIndex) p)
    then (upto dotIndex p, from dotIndex p)
    else (p, [])
  else (p, []).

(** [os.path.realpath('/')]. *)
Definition realpath_root : str := sep.

End OsPath.

(** ** [MixFormatError] and [MixFormatResult] *)

(** The number a run of decimal digits denotes, read from the left. *)
Fixpoint digits_value (acc : Z) (s : str) : option Z :=
  match s with
  | [] => Some acc
  | c :: s' =>
      match to_decimal c with
      | Some d => digits_value (acc * 10 + d) s'
      | None => None
      end
  end.

(** [s.lstrip()] and [s.rstrip()]. *)
Definition lstrip_ws (s : str) : str := drop (span_len is_space s) s.
Definition rstrip_ws (s : str) : str := rev (lstrip_ws (rev s)).

(** The digits of a number, sign and white space gone. *)
Definition int_of_digits (s : str) : res Z :=
  match s with
  | [] => Raise ValueError
  | _ :: _ =>
      match digits_value 0 s with
      | Some n => Ok n
      | None => Raise ValueError
      end
  end.

Definition MINUS : codepoint := 45%N.
Definition PLUS_SIGN : codepoint := 43%N.

(** [int(x)] of Python 3.3 for [None] or a string: white space around the
    number is dropped, a sign is allowed, and every character of the rest
    must be a decimal digit. *)
Definition py_int (o : option str) : res Z :=
  match o with
  | None => Raise TypeError
  | Some s =>
      match lstrip_ws (rstrip_ws s) with
      | [] => Raise ValueError
      | c :: d =>
          if N.eqb c MINUS then res_bind (int_of_digits d) (fun n => Ok (- n))
          else if N.eqb c PLUS_SIGN then int_of_digits d
          else int_of_digits (c :: d)
      end
  end.

(** How [str.format] shows a value that may be [None]. *)
Definition py_str (o : option str) : str :=
  match o with
  | Some s => s
  | None => u "None"
  end.

(** [MixFormatError]: the text and [self.__matches]. *)
Record MixFormatError : Type := mkMixFormatError {
  e_text : str;
  e_matches : option Match
}.

(** [MixFormatError(text)]. *)
Definition MixFormatError_init (text : str) : MixFormatError :=
  mkMixFormatError text (search SYNTAX_ERROR_RE text).

(** [self.__matches.group(n)]: an [AttributeError] when the search found
    nothing. *)
Definition matches_group (e : MixFormatError) (n : nat) : res (option str) :=
  match e_matches e with
  | Some m => Ok (group m n)
  | None => Raise AttributeError
  end.

(** The properties of [MixFormatError]. *)
Definition full_message (e : MixFormatError) : res (option str) := matches_group e 0.
Definition exception (e : MixFormatError) : res (option str) := matches_group e 1.
Definition line (e : MixFormatError) : res Z := res_bind (matches_group e 3) py_int.
Definition reason (e : MixFormatError) : res (option str) := matches_group e 4.
Definition status_message (e : MixFormatError) : res str :=
  res_bind (exception e) (fun x =>
  res_bind (reason e) (fun r =>
  Ok (py_str x ++ u " - " ++ py_str r))).

(** [MixFormatResult]. *)
Record MixFormatResult : Type := mkMixFormatResult {
  r_stdout : str;
  r_stderr : str;
  r_exit_code : Z;
  r_error : option MixFormatError
}.

Definition exit_code_is_zero (exit_code : Z) : bool := Z.eqb exit_code 0.

(** [MixFormatResult(stdout, stderr, exit_code)]: the error is built when
    the result is not successful. *)
Definition MixFormatResult_init (stdout stderr : str) (exit_code : Z) : MixFormatResult :=
  mkMixFormatResult stdout stderr exit_code
    (if negb (exit_code_is_zero exit_code) then Some (MixFormatError_init stderr) else None).

(** The properties of [MixFormatResult]. *)
Definition is_successful (r : MixFormatResult) : bool := exit_code_is_zero (r_exit_code r).
Definition error (r : MixFormatResult) : option MixFormatError := r_error r.
Definition pretty_text (r : MixFormatResult) : str := r_stdout r.

(** ** [Utils] *)

(** [Utils.trim_trailing_ws_and_lines(val)]. *)
Definition trim_trailing_ws_and_lines (val : option str) : option str :=
  match val with
  | None => None
  | Some v => Some (sub TRAILING_WS_RE [] v)
  end.

Definition option_str_eqb (a b : option str) : bool := bool_decide (a = b).

(** [MixFormatResult.is_changed(source_text)]. *)
Definition is_changed (r : MixFormatResult) (source_text : str) : bool :=
  let trimmed_pretty := trim_trailing_ws_and_lines (Some (pretty_text r)) in
  let trimmed_source := trim_trailing_ws_and_lines (Some source_text) in
  negb (option_str_eqb trimmed_source (Some source_text)) &&
  negb (option_str_eqb trimmed_source trimmed_pretty).

(** [MixFormatResult.is_equal(text)]. *)
Definition is_equal (r : MixFormatResult) (text : str) : bool := negb (is_changed r text).

(** [Utils.indent(view)]. *)
Definition Utils_indent (h : Host) : M unit :=
  builtin_command h (u "detect_indentation") [].

(** [Utils.restore_position(view, previous_position)]. *)
Definition Utils_restore_position (previous_position : Z * Z) : M unit :=
  view_set_viewport_position (0, 0) ;;;
  view_set_viewport_position previous_position.

(** [Utils.replace(view, edit, region, text)]. *)
Definition Utils_replace (h : Host) (region : nat * nat) (text : str) : M unit :=
  view_replace h region text.

(** [Utils.st_status_message(msg)]: the message is set from the editor's
    timer queue. *)
Definition st_status_message (msg : str) : M unit :=
  emit (EvStatus (PLUGIN_NAME ++ u ": " ++ msg)).

(** ** [ElixirFormatter] *)

(** [ElixirFormatter.find_project(cwd)].  [depth] is the number of frames
    the interpreter still allows; with none left the call raises. *)
Fixpoint find_project (h : Host) (depth : nat) (cwd : option str) : res (option str) :=
  match depth with
  | O => Raise RecursionError
  | S depth' =>
      let cwd := or_else cwd (getcwd h) in
      if str_eqb cwd OsPath.realpath_root then Ok None
      else if fs_exists h (OsPath.join cwd (u "mix.exs")) then Ok (Some cwd)
      else find_project h depth' (Some (OsPath.dirname cwd))
  end.

Definition is_windows (h : Host) : bool := str_eqb (platform h) (u "windows").

(** [os.pathsep]. *)
Definition pathsep (h : Host) : str := if is_windows h then u ";" else u ":".

Definition PATH : str := u "PATH".

(** [os.pathsep.join([a, b])] where [a] comes from the settings. *)
Definition pathsep_join (h : Host) (a : json) (b : str) : res str :=
  match a with
  | JStr s => Ok (join (pathsep h) [s; b])
  | _ => Raise TypeError
  end.

(** [env['PATH']]. *)
Definition env_lookup (env : gmap str str) (k : str) : res str :=
  match env !! k with
  | Some v => Ok v
  | None => Raise KeyError
  end.

(** The [try] block shared by [mix_format] and [run_command]:
    [env = os.environ.copy()], then the assignment to [env['PATH']], with
    [TypeError], [ValueError] and [KeyError] swallowed. *)
Definition patched_environ (h : Host) : res (gmap str str) :=
  let env := environ h in
  let attempt :=
    res_bind (subscript (preferences h (u "env")) PATH) (fun a =>
    res_bind (env_lookup env PATH) (fun b =>
    pathsep_join h a b)) in
  match attempt with
  | Ok p => Ok (<[PATH := p]> env)
  | Raise TypeError | Raise ValueError | Raise KeyError => Ok env
  | Raise e => Raise e
  end.

Definition STARTF_USESHOWWINDOW : Z := 1.

(** [subprocess.Popen(...)] and [communicate]: the call is recorded, then
    its outcome is what the host gives. *)
Definition spawn (h : Host) (p : Popen) : M (str * str * Z) :=
  emit (EvPopen p) ;;; lift (communicate h p).

(** The process that [mix_format] starts. *)
Definition mix_popen (h : Host) (source_text project_root : str) (env : gmap str str) : Popen :=
  let '(launcher, startupinfo) :=
    if is_windows h
    then ([u "mix.bat"; u "format"; u "-"], Some (Z.lor 0 STARTF_USESHOWWINDOW))
    else ([u "mix"; u "format"; u "-"], None) in
  mkPopen launcher project_root env (Some source_text) startupinfo.

(** [ElixirFormatter.mix_format(source_text, project_root)]. *)
Definition mix_format (h : Host) (source_text project_root : str) : M MixFormatResult :=
  env <- lift (patched_environ h) ;;
  out <- spawn h (mix_popen h source_text project_root env) ;;
  let '(stdout, stderr, exit_code) := out in
  ret (MixFormatResult_init stdout stderr exit_code).

(** The process that [run_command] starts. *)
Definition command_popen (h : Host) (project_root : str) (task_args : list str)
    (env : gmap str str) : Popen :=
  let '(launcher, startupinfo) :=
    if is_windows h
    then ([u "cmd"; u "/c"], Some (Z.lor 0 STARTF_USESHOWWINDOW))
    else ([], None) in
  mkPopen (launcher ++ task_args) project_root env None startupinfo.

(** [ElixirFormatter.run_command(project_root, task_args)]. *)
Definition run_command (h : Host) (project_root : str) (task_args : list str) : M (str * str) :=
  env <- lift (patched_environ h) ;;
  out <- spawn h (command_popen h project_root task_args env) ;;
  let '(stdout, stderr, _) := out in
  ret (stdout, stderr).

(** [ElixirFormatter.check_blacklisted_script_template]. *)
Definition check_blacklisted_script_template : str :=
  [NL] ++
  u "      file = " ++ [QUOTE] ++ u "[[file]]" ++ [QUOTE] ++ [NL] ++
  u "      formatter = " ++ [QUOTE] ++ u ".formatter.exs" ++ [QUOTE] ++ [NL] ++
  u "      with true <- File.exists?(formatter)," ++ [NL] ++
  u "           {formatter_opts, _} <- Code.eval_file(formatter)," ++ [NL] ++
  u "           {:ok, inputs} <- Keyword.fetch(formatter_opts, :inputs) do" ++ [NL] ++
  u "        IO.puts(" ++ [QUOTE] ++
  u "Check result: #{file in Enum.flat_map(inputs, &Path.wildcard/1)}" ++
  [QUOTE] ++ u ")" ++ [NL] ++
  u "      end" ++ [NL] ++
  u "    ".

(** The script of the check for one file. *)
Definition check_script (file_name : str) : str :=
  replace (u "[[file]]") file_name check_blacklisted_script_template.

(** [ElixirFormatter.check_blacklisted_in_config(project_root, file_name)];
    [None] is the value of the bare [return]. *)
Definition check_blacklisted_in_config (h : Host) (project_root file_name : str)
    : M (option bool) :=
  if negb (fs_isfile h (OsPath.join project_root (u ".formatter.exs")))
  then ret None
  else
    let script := check_script file_name in
    out <- run_command h project_root [u "elixir"; u "-e"; script] ;;
    let '(stdout, stderr) := out in
    ret (Some (contains (u "Check result: false") stdout)).

(** The truth value of what the check returned. *)
Definition is_true (o : option bool) : bool :=
  match o with
  | Some b => b
  | None => false
  end.

(** The [else] branch of [run]: report a failed formatter. *)
Definition report_error (h : Host) (result : MixFormatResult) : M unit :=
  match error result with
  | None => raise AttributeError
  | Some err =>
      msg <- lift (full_message err) ;;
      print (PLUGIN_NAME ++ u ": " ++ py_str msg) ;;;
      n <- lift (line err) ;;
      builtin_command h (u "goto_line") [(u "line", JNum n)] ;;;
      status <- lift (status_message err) ;;
      st_status_message status
  end.

(** The branch of [run] taken when formatting changed the text. *)
Definition apply_result (h : Host) (region : nat * nat) (result : MixFormatResult) : M unit :=
  previous_position <- view_viewport_position ;;
  Utils_replace h region (pretty_text result) ;;;
  Utils_indent h ;;;
  Utils_restore_position previous_position ;;;
  st_status_message (u "file formatted").

(** The part of [run] after the blacklist check. *)
Definition format_buffer (h : Host) (project_root : str) : M unit :=
  size <- view_size ;;
  let region := (O, size) in
  source_text <- view_substr region ;;
  result <- mix_format h source_text project_root ;;
  if is_successful result then
    if is_equal result source_text then
      print (PLUGIN_NAME ++ u " found no formatting is needed: files are equal")
    else apply_result h region result
  else report_error h result.

(** The message, the project root and the relative file name of [run]. *)
Definition skip_message (file_name_rel : str) : str :=
  PLUGIN_NAME ++ u " skipped '" ++ file_name_rel ++
  u "' due to :inputs key in '.formatter.exs'".

Definition project_root_of (project_root_with_mix : option str) (file_name : str) : str :=
  or_else project_root_with_mix (OsPath.dirname file_name).

Definition file_name_rel_of (project_root file_name : str) : str :=
  replace (project_root ++ u "/") [] file_name.

(** [ElixirFormatter.run(view, edit, file_name)]. *)
Definition run (h : Host) (file_name : str) : M unit :=
  project_root_with_mix <- lift (find_project h (recursion_limit h) (Some file_name)) ;;
  let project_root := project_root_of project_root_with_mix file_name in
  let file_name_rel := file_name_rel_of project_root file_name in
  blacklisted <- check_blacklisted_in_config h project_root file_name_rel ;;
  if is_true blacklisted then print (skip_message file_name_rel)
  else format_buffer h project_root.

(** ** The command and the event listener *)




(** * The vocabulary of the properties *)

(** ** What a pattern matches *)

Section Denotation.

Local Open Scope nat_scope.

(** What it means for a pattern to match the text [t], followed by [rest]
    and preceded by [prev]: the reading of the pattern, without any order
    among the alternatives. *)
Fixpoint den (pat : pattern) (prev : option codepoint) (t rest : str)
    (pos : nat) (ms ms' : marks) : Prop :=
  match pat with
  | [] => t = [] /\ ms' = ms
  | Lit c :: r => exists t', t = c :: t' /\ den r (Some c) t' rest (S pos) ms ms'
  | Cls p :: r =>
      exists x t', t = x :: t' /\ p x = true /\ den r (Some x) t' rest (S pos) ms ms'
  | Plus p :: r =>
      exists a t', a <> [] /\ forallb p a = true /\ t = a ++ t' /\
                   den r (last a) t' rest (pos + length a) ms ms'
  | Bol :: r => at_bol prev = true /\ den r prev t rest pos ms ms'
  | Eol :: r => at_eol (t ++ rest) = true /\ den r prev t rest pos ms ms'
  | EndZ :: r => t ++ rest = [] /\ den r prev t rest pos ms ms'
  | Open n :: r => den r prev t rest pos ((2 * n, pos) :: ms) ms'
  | Close n :: r => den r prev t rest pos ((2 * n + 1, pos) :: ms) ms'
  end.

(** The marks a match of [SYNTAX_ERROR_RE] that starts at [pos] leaves. *)
Definition syntax_error_marks (pos : nat) (g1 g2 g3 g4 : str) : marks :=
  let s1 := pos + 4 in
  let e1 := s1 + length g1 in
  let s2 := e1 + 2 in
  let e2 := s2 + length g2 in
  let s3 := e2 + 1 in
  let e3 := s3 + length g3 in
  let s4 := e3 + 2 in
  let e4 := s4 + length g4 in
  [(9, e4); (8, s4); (7, e3); (6, s3); (5, e2); (4, s2); (3, e1); (2, s1)].

End Denotation.

(** The text of a structured syntax error: [**], a white-space character,
    the exception in parentheses, a white-space character, the file, a
    colon, the line number, a colon, a white-space character, the reason. *)
Definition syntax_error_text (w1 w2 w3 : codepoint) (g1 g2 g3 g4 : str) : str :=
  [42; 42; w1; 40]%N ++ g1 ++ [41%N; w2] ++ g2 ++ [58%N] ++ g3 ++ [58%N; w3] ++ g4.

(** A non-empty piece of one line. *)
Definition line_piece (g : str) : Prop := g <> [] /\ forallb any_but_newline g = true.

(** A non-empty run of decimal digits. *)
Definition digit_run (g : str) : Prop := g <> [] /\ forallb is_decimal g = true.

(** The parts fit the pattern, between [prev] and [rest]. *)
Definition syntax_error_parts (prev : option codepoint) (rest : str)
    (w1 w2 w3 : codepoint) (g1 g2 g3 g4 : str) : Prop :=
  at_bol prev = true /\ at_eol rest = true /\
  is_space w1 = true /\ is_space w2 = true /\ is_space w3 = true /\
  line_piece g1 /\ line_piece g2 /\ digit_run g3 /\ line_piece g4.

(** [text] holds a structured syntax error after [pre] and before [rest]. *)
Definition syntax_error_in (text pre rest : str)
    (w1 w2 w3 : codepoint) (g1 g2 g3 g4 : str) : Prop :=
  text = pre ++ syntax_error_text w1 w2 w3 g1 g2 g3 g4 ++ rest /\
  syntax_error_parts (last pre) rest w1 w2 w3 g1 g2 g3 g4.

(** [stderr] holds a structured syntax error somewhere. *)
Definition has_syntax_error (text : str) : Prop :=
  exists pre rest w1 w2 w3 g1 g2 g3 g4,
    syntax_error_in text pre rest w1 w2 w3 g1 g2 g3 g4.

(** [l] is one whole line of [text]. *)
Definition is_line_of (text l : str) : Prop :=
  exists pre rest,
    text = pre ++ l ++ rest /\ at_bol (last pre) = true /\ at_eol rest = true /\
    forallb any_but_newline l = true.

(** ** White space *)

(** The text [s] ends with a white-space character. *)
Definition ends_with_space (s : str) : Prop :=
  exists c, last s = Some c /\ is_space c = true.

(** [t] is [s] without its trailing white space. *)
Definition stripped_of (s t : str) : Prop :=
  exists w, s = t ++ w /\ forallb is_space w = true /\ ~ ends_with_space t.

(** The code points [is_space] accepts, one by one. *)
Definition space_table : list codepoint :=
  [ 0x09; 0x0A; 0x0B; 0x0C; 0x0D; 0x1C; 0x1D; 0x1E; 0x1F; 0x20; 0x85; 0xA0;
    0x1680; 0x180E; 0x2000; 0x2001; 0x2002; 0x2003; 0x2004; 0x2005; 0x2006;
    0x2007; 0x2008; 0x2009; 0x200A; 0x2028; 0x2029; 0x202F; 0x205F; 0x3000 ]%N.

(** ** States, processes and results *)

(** The state after one more event. *)
Definition logged (s : St) (e : event) : St := mkSt (view s) (log s ++ [e]).

(** The environment the plugin's processes get: the [try] block never lets
    an exception out. *)
Definition process_environ (h : Host) : gmap str str :=
  match patched_environ h with
  | Ok env => env
  | Raise _ => environ h
  end.

(** The process of the blacklist check. *)
Definition check_popen (h : Host) (project_root file_name : str) : Popen :=
  command_popen h project_root [u "elixir"; u "-e"; check_script file_name]
    (process_environ h).

(** The formatter's process. *)
Definition formatter_popen (h : Host) (source_text project_root : str) : Popen :=
  mix_popen h source_text project_root (process_environ h).

(** The settings give a string for [env.PATH] and the OS environment has a
    [PATH]. *)
Definition path_patch (h : Host) (a b : str) : Prop :=
  subscript (preferences h (u "env")) PATH = Ok (JStr a) /\ environ h !! PATH = Some b.

(** What [run] does with the formatter's answer. *)
Definition conclude (h : Host) (source_text : str) (result : MixFormatResult) : M unit :=
  if is_successful result then
    if is_equal result source_text then
      print (PLUGIN_NAME ++ u " found no formatting is needed: files are equal")
    else apply_result h (O, length source_text) result
  else report_error h result.

(** The view after a replacement by [t]: new text, indentation detected on
    it, everything else as before. *)
Definition formatted_view (h : Host) (v : View) (t : str) : View :=
  mkView (v_file_name v) (v_syntax v) t (v_viewport v) (v_caret_line v) (detect h t).

(** The two messages of a successful run. *)
Definition formatted_status : event := EvStatus (u "ElixirFormatter: file formatted").

(** The calls of a replacement of the text of [v] by [t], in their order:
    replace the whole buffer, detect the indentation, reset the viewport and
    set it to where it was, set the status message. *)
Definition replacement_events (v : View) (t : str) : list event :=
  [ EvReplace (O, length (v_text v)) t;
    EvCommand (u "detect_indentation") [];
    EvViewport (0, 0);
    EvViewport (v_viewport v);
    formatted_status ].

(** The calls of the report of a structured error. *)
Definition report_events (msg : str) (n : Z) (status : str) : list event :=
  [ EvPrint (PLUGIN_NAME ++ u ": " ++ msg);
    EvCommand (u "goto_line") [(u "line", JNum n)];
    EvStatus (PLUGIN_NAME ++ u ": " ++ status) ].

Definition unchanged_notice : event :=
  EvPrint (u "ElixirFormatter found no formatting is needed: files are equal").

(** The view after [goto_line]. *)
Definition moved_view (h : Host) (v : View) (n : Z) : View :=
  set_viewport (reveal h v n) (set_caret_line n v).

(** [run] got past the project lookup and the blacklist check, and is about
    to format: [s1] is the state at that point, [project_root] the
    directory the formatter will run in. *)
Definition reaches_formatter (h : Host) (file_name : str) (s0 s1 : St)
    (project_root : str) : Prop :=
  exists root_opt b,
    find_project h (recursion_limit h) (Some file_name) = Ok root_opt /\
    project_root = project_root_of root_opt file_name /\
    check_blacklisted_in_config h project_root
      (file_name_rel_of project_root file_name) s0 = (Ok b, s1) /\
    is_true b = false.

(** The formatter was started on the buffer and answered. *)
Definition formatter_answers (h : Host) (s0 : St) (project_root : str)
    (stdout stderr : str) (exit_code : Z) : Prop :=
  communicate h (formatter_popen h (v_text (view s0)) project_root) =
    Ok (stdout, stderr, exit_code).


(** ** Files and paths *)

(** [os.path.splitext(file_name)[1][1:]]. *)
Definition extension_of (file_name : str) : str := drop 1 (snd (OsPath.splitext file_name)).


(** A path that starts with two slashes. *)
Definition double_slashed (p : str) : Prop := exists rest, p = SLASH :: SLASH :: rest.

(** An absolute path that does not start with two slashes. *)
Definition plain_absolute (p : str) : Prop :=
  exists rest, p = SLASH :: rest /\ head rest <> Some SLASH.

(** The path and its parents, from the path upward, the root left out. *)
Fixpoint ancestors (fuel : nat) (p : str) : list str :=
  match fuel with
  | O => []
  | S fuel' =>
      if str_eqb p OsPath.realpath_root then []
      else p :: ancestors fuel' (OsPath.dirname p)
  end.

(** The first of the path and its parents that holds a [mix.exs]. *)
Definition nearest_project (h : Host) (p : str) : option str :=
  find (fun d => fs_exists h (OsPath.join d (u "mix.exs"))) (ancestors (length p) p).

(** ** A small host and view to run the code on *)

Module Sample.

Definition file : str := u "/proj/lib/a.ex".

(** A file system whose only entry is [/proj/mix.exs]. *)
Definition fs (p : str) : bool := str_eqb p (u "/proj/mix.exs").

Definition host (answer : Popen -> res (str * str * Z)) : Host :=
  mkHost fs (fun _ => false) (u "/") {[ PATH := u "/usr/bin" ]} (fun _ => JNull)
    (u "linux") answer 64
    (fun _ => mkIndentation true 2) (fun _ _ => (0, 0)) (fun _ => (0, 0)).

Definition view_of (text : str) : View :=
  mkView (Some file) (Some (u "Packages/Elixir/Syntaxes/Elixir.tmLanguage"))
    text (0, 120) 1 (mkIndentation false 4).

Definition state_of (text : str) : St := mkSt (view_of text) [].

(** A formatter that prints [stdout] and [stderr] and exits with [code]. *)
Definition answer (stdout stderr : str) (code : Z) : Popen -> res (str * str * Z) :=
  fun _ => Ok (stdout, stderr, code).

(** The same host with a [/proj/.formatter.exs]. *)
Definition configured (answer : Popen -> res (str * str * Z)) : Host :=
  mkHost fs (fun p => str_eqb p (u "/proj/.formatter.exs")) (u "/")
    {[ PATH := u "/usr/bin" ]} (fun _ => JNull)
    (u "linux") answer 64
    (fun _ => mkIndentation true 2) (fun _ _ => (0, 0)) (fun _ => (0, 0)).

End Sample.

(** A host without [PATH] in its OS environment whose settings give one. *)
Definition host_without_path : Host :=
  mkHost Sample.fs (fun _ => false) (u "/") ∅
    (fun k => if str_eqb k (u "env") then JDict [(PATH, JStr (u "/opt/bin"))] else JNull)
    (u "linux") (Sample.answer [] [] 0) 64
    (fun _ => mkIndentation true 2) (fun _ _ => (0, 0)) (fun _ => (0, 0)).

(** A host whose file system is empty. *)
Definition host_without_files : Host :=
  mkHost (fun _ => false) (fun _ => false) (u "/") ∅ (fun _ => JNull)
    (u "linux") (Sample.answer [] [] 0) 64
    (fun _ => mkIndentation true 2) (fun _ _ => (0, 0)) (fun _ => (0, 0)).

(** ** Outcomes of a run *)

(** The processes among the events. *)
Definition popens (evs : list event) : list Popen :=
  flat_map (fun e => match e with EvPopen p => [p] | _ => [] end) evs.

(** The replacements among the events. *)
Definition replacements (evs : list event) : list (nat * nat * str) :=
  flat_map (fun e => match e with EvReplace r t => [(r, t)] | _ => [] end) evs.

(** What one call of [run] can come to.  [s0] is the state before the call;
    the first three outcomes end before the formatter is started, the
    others after. *)
Inductive run_outcome (h : Host) (file_name : str) (s0 : St) : res unit * St -> Prop :=
| NoProject :
    find_project h (recursion_limit h) (Some file_name) = Raise RecursionError ->
    run_outcome h file_name s0 (Raise RecursionError, s0)
| CheckFailed root_opt e :
    find_project h (recursion_limit h) (Some file_name) = Ok root_opt ->
    let root := project_root_of root_opt file_name in
    let check := check_popen h root (file_name_rel_of root file_name) in
    fs_isfile h (OsPath.join root (u ".formatter.exs")) = true ->
    communicate h check = Raise e ->
    run_outcome h file_name s0 (Raise e, logged s0 (EvPopen check))
| Skipped root_opt stdout stderr code :
    find_project h (recursion_limit h) (Some file_name) = Ok root_opt ->
    let root := project_root_of root_opt file_name in
    let rel := file_name_rel_of root file_name in
    let check := check_popen h root rel in
    fs_isfile h (OsPath.join root (u ".formatter.exs")) = true ->
    communicate h check = Ok (stdout, stderr, code) ->
    contains (u "Check result: false") stdout = true ->
    run_outcome h file_name s0
      (Ok tt, mkSt (view s0) (log s0 ++ [EvPopen check; EvPrint (skip_message rel)]))
| FormatterFailed s1 root e :
    reaches_formatter h file_name s0 s1 root ->
    communicate h (formatter_popen h (v_text (view s0)) root) = Raise e ->
    run_outcome h file_name s0
      (Raise e, logged s1 (EvPopen (formatter_popen h (v_text (view s0)) root)))
| Unchanged s1 root stdout stderr :
    reaches_formatter h file_name s0 s1 root ->
    formatter_answers h s0 root stdout stderr 0 ->
    is_changed (MixFormatResult_init stdout stderr 0) (v_text (view s0)) = false ->
    run_outcome h file_name s0
      (Ok tt, mkSt (view s0)
                   (log s1 ++ [EvPopen (formatter_popen h (v_text (view s0)) root);
                               unchanged_notice]))
| Replaced s1 root stdout stderr :
    reaches_formatter h file_name s0 s1 root ->
    formatter_answers h s0 root stdout stderr 0 ->
    is_changed (MixFormatResult_init stdout stderr 0) (v_text (view s0)) = true ->
    run_outcome h file_name s0
      (Ok tt, mkSt (formatted_view h (view s0) stdout)
                   (log s1 ++ EvPopen (formatter_popen h (v_text (view s0)) root)
                              :: replacement_events (view s0) stdout))
| Unreported s1 root stdout stderr code :
    reaches_formatter h file_name s0 s1 root ->
    formatter_answers h s0 root stdout stderr code ->
    code <> 0 ->
    search SYNTAX_ERROR_RE stderr = None ->
    run_outcome h file_name s0
      (Raise AttributeError,
       logged s1 (EvPopen (formatter_popen h (v_text (view s0)) root)))
| Reported s1 root stdout stderr code msg n status :
    reaches_formatter h file_name s0 s1 root ->
    formatter_answers h s0 root stdout stderr code ->
    code <> 0 ->
    full_message (MixFormatError_init stderr) = Ok (Some msg) ->
    line (MixFormatError_init stderr) = Ok n ->
    status_message (MixFormatError_init stderr) = Ok status ->
    run_outcome h file_name s0
      (Ok tt, mkSt (moved_view h (view s0) n)
                   (log s1 ++ EvPopen (formatter_popen h (v_text (view s0)) root)
                              :: report_events msg n status)).

(** The blacklist check lets the file through: there is no [.formatter.exs]
    in the project root, or the check script ran and did not print
    "Check result: false". *)
Definition check_passes (h : Host) (project_root file_name_rel : str) : bool :=
  if fs_isfile h (OsPath.join project_root (u ".formatter.exs")) then
    match communicate h (check_popen h project_root file_name_rel) with
    | Ok (stdout, _, _) => negb (contains (u "Check result: false") stdout)
    | Raise _ => false
    end
  else true.

(** The processes of the blacklist check: one if [.formatter.exs] is a file
    of the project root, none otherwise. *)
Definition check_processes (h : Host) (project_root file_name_rel : str) : list Popen :=
  if fs_isfile h (OsPath.join project_root (u ".formatter.exs"))
  then [check_popen h project_root file_name_rel] else [].

(** On the buffer text [source_text] of the file [file_name], [run] gets to
    the formatter, which exits with code 0 and prints [stdout], a text
    [is_changed] takes for a change. *)
Definition formats_to (h : Host) (file_name source_text stdout : str) : Prop :=
  exists root_opt stderr,
    find_project h (recursion_limit h) (Some file_name) = Ok root_opt /\
    check_passes h (project_root_of root_opt file_name)
      (file_name_rel_of (project_root_of root_opt file_name) file_name) = true /\
    communicate h (formatter_popen h source_text (project_root_of root_opt file_name)) =
      Ok (stdout, stderr, 0) /\
    is_changed (MixFormatResult_init stdout stderr 0) source_text = true.

(** A formatter that leaves its own output as it is. *)
Definition idempotent_formatter (h : Host) : Prop :=
  forall source_text project_root stdout stderr,
    communicate h (formatter_popen h source_text project_root) = Ok (stdout, stderr, 0) ->
    exists stderr',
      communicate h (formatter_popen h stdout project_root) = Ok (stdout, stderr', 0).

(** The check script before and behind the file name. *)
Definition check_script_head : str :=
  [NL] ++ u "      file = " ++ [QUOTE].

Definition check_script_tail : str :=
  [QUOTE] ++ [NL] ++
  u "      formatter = " ++ [QUOTE] ++ u ".formatter.exs" ++ [QUOTE] ++ [NL] ++
  u "      with true <- File.exists?(formatter)," ++ [NL] ++
  u "           {formatter_opts, _} <- Code.eval_file(formatter)," ++ [NL] ++
  u "           {:ok, inputs} <- Keyword.fetch(formatter_opts, :inputs) do" ++ [NL] ++
  u "        IO.puts(" ++ [QUOTE] ++
  u "Check result: #{file in Enum.flat_map(inputs, &Path.wildcard/1)}" ++
  [QUOTE] ++ u ")" ++ [NL] ++
  u "      end" ++ [NL] ++
  u "    ".

(** ** The match the engine picks *)

Section Greedy.

Local Open Scope nat_scope.

(** [den] with the priorities of the engine: a repetition takes the longest
    run after which the rest of the pattern matches; no longer run of the
    class is followed by a text the rest of the pattern denotes. *)
Fixpoint greedy (pat : pattern) (prev : option codepoint) (t rest : str)
    (pos : nat) (ms ms' : marks) : Prop :=
  match pat with
  | [] => t = [] /\ ms' = ms
  | Lit c :: r => exists t', t = c :: t' /\ greedy r (Some c) t' rest (S pos) ms ms'
  | Cls p :: r =>
      exists x t', t = x :: t' /\ p x = true /\ greedy r (Some x) t' rest (S pos) ms ms'
  | Plus p :: r =>
      exists a t', a <> [] /\ forallb p a = true /\ t = a ++ t' /\
                   greedy r (last a) t' rest (pos + length a) ms ms' /\
                   forall b t2 rest2 ms2,
                     forallb p b = true -> length a < length b ->
                     t ++ rest = b ++ t2 ++ rest2 ->
                     ~ den r (last b) t2 rest2 (pos + length b) ms ms2
  | Bol :: r => at_bol prev = true /\ greedy r prev t rest pos ms ms'
  | Eol :: r => at_eol (t ++ rest) = true /\ greedy r prev t rest pos ms ms'
  | EndZ :: r => t ++ rest = [] /\ greedy r prev t rest pos ms ms'
  | Open n :: r => greedy r prev t rest pos ((2 * n, pos) :: ms) ms'
  | Close n :: r => greedy r prev t rest pos ((2 * n + 1, pos) :: ms) ms'
  end.

End Greedy.

(** * Properties *)

(** ** The regular-expression engine *)

Section ReTheory.

Local Open Scope nat_scope.

Lemma first_down_Some {A} (f : nat -> option A) k x :
  first_down f k = Some x -> exists j, 1 <= j <= k /\ f j = Some x.
Proof.
  induction k as [|k IH]; simpl; [discriminate|].
  destruct (f (S k)) as [y|] eqn:E.
  - intros [= <-]. exists (S k). split; [lia | exact E].
  - intros H. destruct (IH H) as (j & Hj & Hf). exists j. split; [lia | exact Hf].
Qed.

Lemma first_down_is_Some {A} (f : nat -> option A) k j :
  1 <= j <= k -> is_Some (f j) -> is_Some (first_down f k).
Proof.
  induction k as [|k IH]; intros Hj Hf; [lia|].
  simpl. destruct (f (S k)) as [y|] eqn:E; [eauto|].
  destruct (decide (j = S k)) as [->|Hne].
  - rewrite E in Hf. destruct Hf as [? ?]. discriminate.
  - apply IH; [lia | exact Hf].
Qed.

Lemma first_down_None {A} (f : nat -> option A) k :
  (forall j, 1 <= j <= k -> f j = None) -> first_down f k = None.
Proof.
  induction k as [|k IH]; intros H; [reflexivity|].
  simpl. rewrite (H (S k)) by lia. apply IH. intros j Hj. apply H. lia.
Qed.

Lemma span_len_le p s : span_len p s <= length s.
Proof. induction s as [|c s IH]; simpl; [lia|]. destruct (p c); simpl; lia. Qed.

Lemma span_len_take p s k : k <= span_len p s -> forallb p (take k s) = true.
Proof.
  revert k. induction s as [|c s IH]; intros k Hk; simpl in *.
  - destruct k; reflexivity.
  - destruct k as [|k]; [reflexivity|]. destruct (p c) eqn:E; [|lia].
    simpl. rewrite E. apply IH. lia.
Qed.

Lemma span_len_app_ge p a s : forallb p a = true -> length a <= span_len p (a ++ s).
Proof.
  induction a as [|c a IH]; simpl; [lia|].
  intros [Hc Ha]%andb_prop. rewrite Hc. specialize (IH Ha). lia.
Qed.

Lemma span_len_all p s : forallb p s = true -> span_len p s = length s.
Proof.
  intros H. pose proof (span_len_app_ge p s [] H) as H1. rewrite app_nil_r in H1.
  pose proof (span_len_le p s). lia.
Qed.

Lemma span_len_not_all p s : forallb p s = false -> span_len p s < length s.
Proof.
  induction s as [|c s IH]; simpl; [discriminate|].
  destruct (p c); simpl; [intros H; specialize (IH H); lia | lia].
Qed.

(** The matcher only finds what the pattern denotes. *)
Lemma match_here_sound pat : forall prev s pos ms e ms',
  match_here pat prev s pos ms = Some (e, ms') ->
  exists t rest, s = t ++ rest /\ e = pos + length t /\ den pat prev t rest pos ms ms'.
Proof.
  induction pat as [|it r IH]; intros prev s pos ms e ms' H; simpl in H.
  - injection H as <- <-. exists [], s. simpl. repeat split; lia.
  - destruct it as [c|p|p| | | |n|n].
    + destruct s as [|x s']; [discriminate|].
      destruct (N.eqb x c) eqn:E; [|discriminate].
      apply N.eqb_eq in E. subst x.
      destruct (IH _ _ _ _ _ _ H) as (t & rest & -> & -> & D).
      exists (c :: t), rest. simpl. repeat split; [lia|]. exists t. auto.
    + destruct s as [|x s']; [discriminate|].
      destruct (p x) eqn:E; [|discriminate].
      destruct (IH _ _ _ _ _ _ H) as (t & rest & -> & -> & D).
      exists (x :: t), rest. simpl. repeat split; [lia|]. exists x, t. auto.
    + apply first_down_Some in H. destruct H as (k & Hk & H).
      destruct (IH _ _ _ _ _ _ H) as (t & rest & Hs & -> & D).
      pose proof (span_len_le p s) as Hle.
      exists (take k s ++ t), rest.
      assert (Hlen : length (take k s) = k) by (rewrite length_take; lia).
      repeat split.
      * rewrite <- app_assoc, <- Hs. symmetry. apply take_drop.
      * rewrite length_app, Hlen. lia.
      * simpl. exists (take k s), t. repeat split.
        -- intros Hnil. rewrite Hnil in Hlen. simpl in Hlen. lia.
        -- apply span_len_take. lia.
        -- rewrite Hlen. exact D.
    + destruct (at_bol prev) eqn:E; [|discriminate].
      destruct (IH _ _ _ _ _ _ H) as (t & rest & -> & -> & D).
      exists t, rest. simpl. auto.
    + destruct (at_eol s) eqn:E; [|discriminate].
      destruct (IH _ _ _ _ _ _ H) as (t & rest & -> & -> & D).
      exists t, rest. simpl. auto.
    + destruct s as [|x s']; [|discriminate].
      destruct (IH _ _ _ _ _ _ H) as (t & rest & Hs & -> & D).
      exists t, rest. simpl. rewrite <- Hs. auto.
    + destruct (IH _ _ _ _ _ _ H) as (t & rest & -> & -> & D).
      exists t, rest. simpl. auto.
    + destruct (IH _ _ _ _ _ _ H) as (t & rest & -> & -> & D).
      exists t, rest. simpl. auto.
Qed.

(** Whatever the pattern denotes at a position, the matcher finds a match
    there (the one its priorities pick). *)
Lemma match_here_complete pat : forall prev t rest pos ms ms',
  den pat prev t rest pos ms ms' ->
  is_Some (match_here pat prev (t ++ rest) pos ms).
Proof.
  induction pat as [|it r IH]; intros prev t rest pos ms ms' D; simpl in D.
  - simpl. eauto.
  - destruct it as [c|p|p| | | |n|n]; simpl.
    + destruct D as (t' & -> & D). simpl. rewrite N.eqb_refl. eapply IH, D.
    + destruct D as (x & t' & -> & Hx & D). simpl. rewrite Hx. eapply IH, D.
    + destruct D as (a & t' & Ha & Hp & -> & D).
      apply (first_down_is_Some _ _ (length a)).
      * split.
        -- destruct a; [congruence | simpl; lia].
        -- rewrite <- app_assoc. apply span_len_app_ge, Hp.
      * rewrite <- app_assoc, take_app_length, drop_app_length. eapply IH, D.
    + destruct D as (Hb & D). rewrite Hb. eapply IH, D.
    + destruct D as (He & D). rewrite He. eapply IH, D.
    + destruct D as (He & D). rewrite He. apply app_eq_nil in He as [-> ->].
      simpl in *. apply (IH _ [] [] _ _ _ D).
    + eapply IH, D.
    + eapply IH, D.
Qed.

End ReTheory.

(** ** Trimming trailing white space *)

Section TrimTheory.

Local Open Scope nat_scope.

Lemma stripped_of_unique s t1 t2 : stripped_of s t1 -> stripped_of s t2 -> t1 = t2.
Proof.
  assert (Hhalf : forall (a b w l : str),
             forallb is_space w = true -> ~ ends_with_space a ->
             a = b ++ l -> w = l ++ [] \/ (exists w', w = l ++ w') -> l = []).
  { intros a b w l Hw Ha -> Hl. destruct l as [|x l] using rev_ind; [reflexivity|].
    exfalso. apply Ha. exists x. split.
    - rewrite app_assoc. apply last_snoc.
    - assert (Hin : In x w).
      { destruct Hl as [->| [w' ->]]; rewrite ?app_nil_r;
          repeat (apply in_or_app; (right; simpl; tauto) || left). }
      rewrite forallb_forall in Hw. apply Hw, Hin. }
  intros (w1 & E1 & W1 & N1) (w2 & E2 & W2 & N2).
  rewrite E1 in E2. apply app_eq_app in E2 as [l [[-> ->] | [-> ->]]].
  - assert (l = []) as ->; [|apply app_nil_r].
    eapply (Hhalf _ t2 (l ++ w1) l W2 N1 eq_refl). right. eauto.
  - assert (l = []) as ->; [|symmetry; apply app_nil_r].
    eapply (Hhalf _ t1 (l ++ w2) l W1 N2 eq_refl). right. eauto.
Qed.

(** [\s+\Z] matches at a position exactly when what follows is a non-empty
    run of white space up to the end, and then takes all of it. *)
Lemma match_trailing_ws prev s :
  match_here TRAILING_WS_RE prev s 0 [] =
    match s with
    | [] => None
    | _ :: _ => if forallb is_space s then Some (length s, []) else None
    end.
Proof.
  unfold TRAILING_WS_RE. cbn [match_here].
  destruct s as [|c s']; [reflexivity|]. set (s := c :: s').
  destruct (forallb is_space s) eqn:E.
  - rewrite (span_len_all _ _ E). subst s. cbn [length first_down].
    replace (drop (S (length s')) (c :: s')) with (@nil codepoint); [reflexivity|].
    symmetry. apply (drop_all (c :: s')).
  - apply first_down_None. intros j Hj.
    pose proof (span_len_not_all _ _ E) as Hlt.
    destruct (drop j s) eqn:Ed; [|reflexivity].
    apply (f_equal length) in Ed. rewrite length_drop in Ed.
    change (length (@nil codepoint)) with 0 in Ed. lia.
Qed.

Lemma sub_go_skip_all s : forall adj prev,
  sub_go TRAILING_WS_RE [] (length s) adj prev s = [].
Proof.
  induction s as [|c s IH]; intros adj prev.
  - cbn [length sub_go]. rewrite match_trailing_ws. reflexivity.
  - cbn [length sub_go]. apply IH.
Qed.

Lemma sub_go_stripped s : forall adj prev,
  stripped_of s (sub_go TRAILING_WS_RE [] 0 adj prev s).
Proof.
  induction s as [|c s IH]; intros adj prev.
  - cbn [sub_go]. rewrite match_trailing_ws. exists []. repeat split.
    intros (x & Hx & _). discriminate.
  - cbn [sub_go]. rewrite match_trailing_ws.
    destruct (forallb is_space (c :: s)) eqn:E.
    + cbn [length app]. rewrite sub_go_skip_all.
      exists (c :: s). repeat split; [exact E|]. intros (x & Hx & _). discriminate.
    + destruct (IH false (Some c)) as (w & Hs & Hw & Hn).
      set (r := sub_go TRAILING_WS_RE [] 0 false (Some c) s) in *.
      exists w. repeat split; [simpl; congruence | exact Hw |].
      intros (x & Hx & Hsp). destruct r as [|y r'] eqn:Er.
      * simpl in Hx. injection Hx as ->. simpl in Hs. subst w.
        simpl in E. rewrite Hsp, Hw in E. discriminate.
      * apply Hn. exists x. split; [|exact Hsp]. rewrite <- Hx. reflexivity.
Qed.

(** [re.sub(r'\s+\Z', '', s)] is [s] without its trailing white space. *)
Lemma sub_trailing_ws_stripped s : stripped_of s (sub TRAILING_WS_RE [] s).
Proof. apply sub_go_stripped. Qed.

Lemma stripped_of_self s : ~ ends_with_space s -> stripped_of s s.
Proof. intros H. exists []. rewrite app_nil_r. repeat split. exact H. Qed.

(** The trimmed text is the text itself exactly when the text does not end
    with white space. *)
Lemma sub_trailing_ws_fixed s :
  sub TRAILING_WS_RE [] s = s <-> ~ ends_with_space s.
Proof.
  split.
  - intros E. destruct (sub_trailing_ws_stripped s) as (w & _ & _ & Hn).
    rewrite E in Hn. exact Hn.
  - intros Hn. eapply stripped_of_unique; [apply sub_trailing_ws_stripped|].
    apply stripped_of_self, Hn.
Qed.

Lemma ends_with_space_dec s : {ends_with_space s} + {~ ends_with_space s}.
Proof.
  destruct (last s) as [c|] eqn:E.
  - destruct (is_space c) eqn:Ec.
    + left. exists c. auto.
    + right. intros (x & Hx & Hs). congruence.
  - right. intros (x & Hx & _). congruence.
Qed.

End TrimTheory.

(** ** What [SYNTAX_ERROR_RE] finds *)

Section SyntaxErrorTheory.

Local Open Scope nat_scope.

Lemma den_syntax_error prev t rest pos ms ms' :
  den SYNTAX_ERROR_RE prev t rest pos ms ms' <->
  exists w1 w2 w3 g1 g2 g3 g4,
    t = syntax_error_text w1 w2 w3 g1 g2 g3 g4 /\
    syntax_error_parts prev rest w1 w2 w3 g1 g2 g3 g4 /\
    ms' = syntax_error_marks pos g1 g2 g3 g4 ++ ms.
Proof.
  unfold SYNTAX_ERROR_RE, syntax_error_parts, line_piece, digit_run. split.
  - simpl.
    intros (Hbol & t1 & -> & t2 & -> & w1 & t3 & -> & Hw1 & t4 & -> &
            g1 & t5 & Hn1 & Hp1 & -> & t6 & -> & w2 & t7 & -> & Hw2 &
            g2 & t8 & Hn2 & Hp2 & -> & t9 & -> &
            g3 & t10 & Hn3 & Hp3 & -> & t11 & -> & w3 & t12 & -> & Hw3 &
            g4 & t13 & Hn4 & Hp4 & -> & Heol & -> & ->).
    rewrite app_nil_r in *. simpl in Heol.
    exists w1, w2, w3, g1, g2, g3, g4. split; [reflexivity|]. split; [tauto|].
    unfold syntax_error_marks. simpl. repeat f_equal; lia.
  - intros (w1 & w2 & w3 & g1 & g2 & g3 & g4 & -> & H & ->).
    destruct H as (Hbol & Heol & Hw1 & Hw2 & Hw3 & [Hn1 Hp1] & [Hn2 Hp2] & [Hn3 Hp3] & [Hn4 Hp4]).
    unfold syntax_error_text. simpl.
    split; [exact Hbol|]. eexists. split; [reflexivity|].
    eexists. split; [reflexivity|].
    exists w1. eexists. split; [reflexivity|]. split; [exact Hw1|].
    eexists. split; [reflexivity|].
    exists g1. eexists. split; [exact Hn1|]. split; [exact Hp1|]. split; [reflexivity|].
    eexists. split; [reflexivity|].
    exists w2. eexists. split; [reflexivity|]. split; [exact Hw2|].
    exists g2. eexists. split; [exact Hn2|]. split; [exact Hp2|]. split; [reflexivity|].
    eexists. split; [reflexivity|].
    exists g3. eexists. split; [exact Hn3|]. split; [exact Hp3|]. split; [reflexivity|].
    eexists. split; [reflexivity|].
    exists w3. eexists. split; [reflexivity|]. split; [exact Hw3|].
    exists g4, []. split; [exact Hn4|]. split; [exact Hp4|].
    split; [symmetry; apply app_nil_r|].
    split; [exact Heol|]. split; [reflexivity|].
    unfold syntax_error_marks. simpl. repeat f_equal; lia.
Qed.

Lemma search_from_sound pat text : forall s pre m,
  text = pre ++ s ->
  search_from pat text (last pre) s (length pre) = Some m ->
  exists pre' t rest,
    text = pre' ++ t ++ rest /\ m_string m = text /\
    m_start m = length pre' /\ m_end m = length pre' + length t /\
    den pat (last pre') t rest (length pre') [] (m_marks m).
Proof.
  induction s as [|c s IH]; intros pre m Htext H; simpl in H.
  - destruct (match_here pat (last pre) [] (length pre) []) as [[e ms]|] eqn:E; [|discriminate].
    injection H as <-. apply match_here_sound in E as (t & rest & Hs & -> & D).
    exists pre, t, rest. simpl. rewrite <- Hs. auto.
  - destruct (match_here pat (last pre) (c :: s) (length pre) []) as [[e ms]|] eqn:E.
    + injection H as <-. apply match_here_sound in E as (t & rest & Hs & -> & D).
      exists pre, t, rest. simpl. rewrite <- Hs. auto.
    + apply (IH (pre ++ [c])).
      * rewrite <- app_assoc. exact Htext.
      * rewrite last_snoc, length_app, Nat.add_1_r. exact H.
Qed.

Lemma search_from_complete pat text : forall a pre t rest ms',
  text = pre ++ a ++ t ++ rest ->
  den pat (last (pre ++ a)) t rest (length (pre ++ a)) [] ms' ->
  is_Some (search_from pat text (last pre) (a ++ t ++ rest) (length pre)).
Proof.
  induction a as [|c a IH]; intros pre t rest ms' Htext D.
  - rewrite app_nil_r in D. apply match_here_complete in D as [[e ms] E].
    simpl. destruct (t ++ rest); simpl; rewrite E; eauto.
  - simpl. destruct (match_here pat (last pre) (c :: a ++ t ++ rest) (length pre) [])
      as [[e ms]|]; [eauto|].
    assert (E1 : last (pre ++ [c]) = Some c) by apply last_snoc.
    assert (E2 : length (pre ++ [c]) = S (length pre))
      by (rewrite length_app; simpl; lia).
    replace (pre ++ c :: a) with ((pre ++ [c]) ++ a) in D
      by (rewrite <- app_assoc; reflexivity).
    specialize (IH (pre ++ [c]) t rest ms').
    rewrite E1, E2 in IH. apply IH.
    + rewrite <- app_assoc. exact Htext.
    + exact D.
Qed.

Lemma slice_middle (x y z : str) a b :
  a = length x -> b = a + length y -> slice a b (x ++ y ++ z) = y.
Proof.
  intros -> ->. unfold slice. rewrite drop_app_length.
  replace (length x + length y - length x) with (length y) by lia.
  apply take_app_length.
Qed.

End SyntaxErrorTheory.

Section SearchTheory.

Local Open Scope nat_scope.

(** Cut [y] out of a text that reads [x ++ y ++ z]. *)
Ltac slice_out x y z :=
  f_equal;
  transitivity (slice (length x) (length x + length y) (x ++ y ++ z));
  [ f_equal;
    [ rewrite ?length_app; simpl; lia
    | rewrite ?length_app; simpl; lia
    | repeat rewrite <- app_assoc; simpl; repeat rewrite <- app_assoc; reflexivity ]
  | apply slice_middle; reflexivity ].

(** A match of [SYNTAX_ERROR_RE] is a structured syntax error of the text,
    and the groups of the match are its parts. *)
Lemma search_syntax_error_sound text m :
  search SYNTAX_ERROR_RE text = Some m ->
  exists pre rest w1 w2 w3 g1 g2 g3 g4,
    syntax_error_in text pre rest w1 w2 w3 g1 g2 g3 g4 /\
    group m 0 = Some (syntax_error_text w1 w2 w3 g1 g2 g3 g4) /\
    group m 1 = Some g1 /\ group m 2 = Some g2 /\
    group m 3 = Some g3 /\ group m 4 = Some g4.
Proof.
  intros H. unfold search in H.
  apply (search_from_sound _ text text [] m eq_refl) in H
    as (pre & t & rest & Htext & Hstr & Hstart & Hend & D).
  apply den_syntax_error in D as (w1 & w2 & w3 & g1 & g2 & g3 & g4 & -> & Hparts & Hms).
  rewrite app_nil_r in Hms.
  exists pre, rest, w1, w2, w3, g1, g2, g3, g4.
  split; [split; assumption|].
  unfold group. rewrite Hstr, Hstart, Hend, Hms.
  cbn [mark syntax_error_marks Nat.mul Nat.add Nat.eqb].
  rewrite Htext. unfold syntax_error_text.
  split; [f_equal; apply slice_middle; reflexivity|].
  split.
  { slice_out (pre ++ [42; 42; w1; 40]%N) g1
      ([41%N; w2] ++ g2 ++ [58%N] ++ g3 ++ [58%N; w3] ++ g4 ++ rest). }
  split.
  { slice_out (pre ++ [42; 42; w1; 40]%N ++ g1 ++ [41%N; w2]) g2
      ([58%N] ++ g3 ++ [58%N; w3] ++ g4 ++ rest). }
  split.
  { slice_out (pre ++ [42; 42; w1; 40]%N ++ g1 ++ [41%N; w2] ++ g2 ++ [58%N]) g3
      ([58%N; w3] ++ g4 ++ rest). }
  { slice_out (pre ++ [42; 42; w1; 40]%N ++ g1 ++ [41%N; w2] ++ g2 ++ [58%N] ++ g3 ++ [58%N; w3])
      g4 rest. }
Qed.

(** Wherever the text holds a structured syntax error, the search finds a
    match. *)
Lemma search_syntax_error_complete text :
  has_syntax_error text -> is_Some (search SYNTAX_ERROR_RE text).
Proof.
  intros (pre & rest & w1 & w2 & w3 & g1 & g2 & g3 & g4 & Htext & Hparts).
  unfold search. rewrite Htext at 2.
  apply (search_from_complete _ text pre [] _ rest
           (syntax_error_marks (length pre) g1 g2 g3 g4 ++ [])); [exact Htext|].
  apply den_syntax_error. exists w1, w2, w3, g1, g2, g3, g4. auto.
Qed.

Lemma search_syntax_error_iff text :
  is_Some (search SYNTAX_ERROR_RE text) <-> has_syntax_error text.
Proof.
  split; [|apply search_syntax_error_complete].
  intros [m Hm]. apply search_syntax_error_sound in Hm
    as (pre & rest & w1 & w2 & w3 & g1 & g2 & g3 & g4 & H & _).
  exists pre, rest, w1, w2, w3, g1, g2, g3, g4. exact H.
Qed.

End SearchTheory.

(** ** [int] on a run of digits *)

Section IntTheory.

Lemma is_space_table c : is_space c = true -> In c space_table.
Proof.
  unfold is_space, between. intros H.
  repeat rewrite orb_true_iff in H. repeat rewrite andb_true_iff in H.
  repeat rewrite N.leb_le in H. repeat rewrite N.eqb_eq in H.
  unfold space_table. simpl. lia.
Qed.

Lemma decimal_not_space c : is_decimal c = true -> is_space c = false.
Proof.
  intros Hd. destruct (is_space c) eqn:Hs; [|reflexivity].
  apply is_space_table in Hs. unfold space_table in Hs. simpl in Hs.
  repeat (destruct Hs as [<-|Hs]; [vm_compute in Hd; discriminate|]).
  destruct Hs.
Qed.

Lemma lstrip_ws_id s : (forall c, In c s -> is_space c = false) -> lstrip_ws s = s.
Proof.
  intros H. unfold lstrip_ws. destruct s as [|c s]; [reflexivity|].
  simpl. rewrite (H c) by (left; reflexivity). reflexivity.
Qed.

Lemma rstrip_ws_id s : (forall c, In c s -> is_space c = false) -> rstrip_ws s = s.
Proof.
  intros H. unfold rstrip_ws. rewrite lstrip_ws_id; [apply rev_involutive|].
  intros c Hc. apply H. apply in_rev. exact Hc.
Qed.

Lemma to_decimal_in_nonneg zeros c d : to_decimal_in zeros c = Some d -> 0 <= d.
Proof.
  induction zeros as [|z zs IH]; simpl; [discriminate|].
  destruct (between z (z + 9)%N c); [|exact IH]. intros [= <-]. lia.
Qed.

Lemma digits_value_total s : forallb is_decimal s = true ->
  forall acc, 0 <= acc -> exists n, digits_value acc s = Some n /\ 0 <= n.
Proof.
  induction s as [|c s IH]; intros H acc Hacc; simpl.
  - eauto.
  - simpl in H. apply andb_prop in H as [Hc Hs].
    unfold is_decimal in Hc. destruct (to_decimal c) as [d|] eqn:E; [|discriminate].
    apply to_decimal_in_nonneg in E. apply IH; [exact Hs | lia].
Qed.

(** [int] never fails on what [\d+] captured, and the number is not
    negative. *)
Lemma py_int_digit_run g :
  digit_run g -> exists n, py_int (Some g) = Ok n /\ digits_value 0 g = Some n /\ 0 <= n.
Proof.
  intros [Hne Hd].
  assert (Hns : forall c, In c g -> is_space c = false).
  { intros c Hc. apply decimal_not_space. rewrite forallb_forall in Hd. auto. }
  destruct (digits_value_total g Hd 0 ltac:(lia)) as (n & Hn & Hpos).
  exists n. split; [|auto]. unfold py_int.
  rewrite (rstrip_ws_id g Hns), (lstrip_ws_id g Hns).
  destruct g as [|c d]; [congruence|].
  simpl in Hd. apply andb_prop in Hd as [Hc _].
  destruct (N.eqb c MINUS) eqn:E1.
  { apply N.eqb_eq in E1. subst c. vm_compute in Hc. discriminate. }
  destruct (N.eqb c PLUS_SIGN) eqn:E2.
  { apply N.eqb_eq in E2. subst c. vm_compute in Hc. discriminate. }
  unfold int_of_digits. rewrite Hn. reflexivity.
Qed.

End IntTheory.

(** ** The effectful code, step by step *)

Section RunTheory.

Lemma slice_all (t : str) : slice 0 (length t) t = t.
Proof. unfold slice. rewrite Nat.sub_0_r, drop_0. apply firstn_all. Qed.

Lemma patched_environ_total h : patched_environ h = Ok (process_environ h).
Proof.
  unfold process_environ, patched_environ, subscript, env_lookup, pathsep_join, res_bind.
  destruct (preferences h (u "env")) as [| | | | |kvs]; try reflexivity.
  destruct (assoc PATH kvs) as [a|]; [|reflexivity].
  destruct (environ h !! PATH) as [b|]; [|reflexivity].
  destruct a; reflexivity.
Qed.

Lemma run_command_spec h project_root task_args s :
  let p := command_popen h project_root task_args (process_environ h) in
  run_command h project_root task_args s =
    match communicate h p with
    | Ok (stdout, stderr, _) => (Ok (stdout, stderr), logged s (EvPopen p))
    | Raise e => (Raise e, logged s (EvPopen p))
    end.
Proof.
  unfold run_command, bind, lift, spawn, emit, bind, ret, logged.
  rewrite patched_environ_total. simpl.
  destruct (communicate h _) as [[[out err] code]|e]; reflexivity.
Qed.

Lemma check_blacklisted_spec h project_root file_name s :
  check_blacklisted_in_config h project_root file_name s =
    if fs_isfile h (OsPath.join project_root (u ".formatter.exs")) then
      match communicate h (check_popen h project_root file_name) with
      | Ok (stdout, _, _) =>
          (Ok (Some (contains (u "Check result: false") stdout)),
           logged s (EvPopen (check_popen h project_root file_name)))
      | Raise e => (Raise e, logged s (EvPopen (check_popen h project_root file_name)))
      end
    else (Ok None, s).
Proof.
  unfold check_blacklisted_in_config.
  destruct (fs_isfile h _); simpl; [|reflexivity].
  unfold bind. rewrite run_command_spec. fold (check_popen h project_root file_name).
  destruct (communicate h _) as [[[out err] code]|e]; reflexivity.
Qed.

Lemma check_blacklisted_view h project_root file_name s r s' :
  check_blacklisted_in_config h project_root file_name s = (r, s') -> view s' = view s.
Proof.
  rewrite check_blacklisted_spec.
  destruct (fs_isfile h _); [|intros [= _ <-]; reflexivity].
  destruct (communicate h _) as [[[out err] code]|e]; intros [= _ <-]; reflexivity.
Qed.

Lemma mix_format_spec h source_text project_root s :
  let p := formatter_popen h source_text project_root in
  mix_format h source_text project_root s =
    match communicate h p with
    | Ok (stdout, stderr, exit_code) =>
        (Ok (MixFormatResult_init stdout stderr exit_code), logged s (EvPopen p))
    | Raise e => (Raise e, logged s (EvPopen p))
    end.
Proof.
  unfold mix_format, formatter_popen, bind, lift, spawn, emit, bind, ret, logged.
  rewrite patched_environ_total. simpl.
  destruct (communicate h _) as [[[out err] code]|e]; reflexivity.
Qed.

Lemma format_buffer_spec h project_root s :
  let source_text := v_text (view s) in
  let p := formatter_popen h source_text project_root in
  format_buffer h project_root s =
    match communicate h p with
    | Ok (stdout, stderr, exit_code) =>
        conclude h source_text (MixFormatResult_init stdout stderr exit_code)
          (logged s (EvPopen p))
    | Raise e => (Raise e, logged s (EvPopen p))
    end.
Proof.
  unfold format_buffer, view_size, view_substr, get_view. unfold bind at 1 2 3 4 5. unfold ret.
  cbn [fst snd]. rewrite slice_all. rewrite mix_format_spec.
  destruct (communicate h _) as [[[out err] code]|e]; reflexivity.
Qed.

Lemma apply_result_spec h result s :
  apply_result h (O, length (v_text (view s))) result s =
    (Ok tt, mkSt (formatted_view h (view s) (pretty_text result))
                 (log s ++ replacement_events (view s) (pretty_text result))).
Proof.
  unfold apply_result, Utils_replace, Utils_indent, Utils_restore_position,
    st_status_message, view_viewport_position, view_replace, view_set_viewport_position,
    builtin_command, builtin_effect, get_view, view_call, emit, bind, ret.
  cbn [fst snd view log str_eqb].
  change (bool_decide (u "detect_indentation" = u "goto_line")) with false.
  change (bool_decide (u "detect_indentation" = u "detect_indentation")) with true.
  cbn [view log]. rewrite take_0, drop_all, app_nil_r.
  unfold replacement_events. rewrite <- !app_assoc. reflexivity.
Qed.

End RunTheory.

Section ReportTheory.

Lemma error_of_failure stdout stderr code :
  code <> 0 ->
  error (MixFormatResult_init stdout stderr code) = Some (MixFormatError_init stderr).
Proof.
  intros H. unfold error, MixFormatResult_init, exit_code_is_zero. simpl.
  destruct (Z.eqb_spec code 0); [contradiction | reflexivity].
Qed.

Lemma error_of_success stdout stderr :
  error (MixFormatResult_init stdout stderr 0) = None.
Proof. reflexivity. Qed.

Lemma is_successful_iff stdout stderr code :
  is_successful (MixFormatResult_init stdout stderr code) = true <-> code = 0.
Proof. unfold is_successful, exit_code_is_zero. simpl. apply Z.eqb_eq. Qed.

(** A failed formatter whose stderr holds no structured error: the report
    raises before it prints anything. *)
Lemma report_error_no_match h stdout stderr code s :
  code <> 0 -> search SYNTAX_ERROR_RE stderr = None ->
  report_error h (MixFormatResult_init stdout stderr code) s = (Raise AttributeError, s).
Proof.
  intros Hc Hs. unfold report_error. rewrite (error_of_failure _ _ _ Hc).
  unfold full_message, matches_group, MixFormatError_init, bind, lift. simpl.
  rewrite Hs. reflexivity.
Qed.

(** A failed formatter whose stderr holds a structured error: the message
    is printed, the caret goes to the line, the status bar shows the
    exception and the reason. *)
Lemma report_error_match h stdout stderr code s m g0 g1 g3 g4 n :
  code <> 0 -> search SYNTAX_ERROR_RE stderr = Some m ->
  group m 0 = Some g0 -> group m 1 = Some g1 -> group m 3 = Some g3 ->
  group m 4 = Some g4 -> py_int (Some g3) = Ok n ->
  report_error h (MixFormatResult_init stdout stderr code) s =
    (Ok tt, mkSt (moved_view h (view s) n)
                 (log s ++ report_events g0 n (g1 ++ u " - " ++ g4))).
Proof.
  intros Hc Hs H0 H1 H3 H4 Hn. unfold report_error. rewrite (error_of_failure _ _ _ Hc).
  unfold full_message, line, status_message, exception, reason, matches_group,
    MixFormatError_init, res_bind, bind, lift, print, st_status_message, emit,
    builtin_command, builtin_effect, view_call, moved_view, report_events.
  cbn [e_matches]. rewrite Hs, H0, H1, H3, H4, Hn.
  change (str_eqb (u "goto_line") (u "goto_line")) with true.
  cbn [assoc].
  change (str_eqb (u "line") (u "line")) with true.
  cbn [view log py_str]. rewrite <- !app_assoc. reflexivity.
Qed.

(** Whatever the formatter wrote, reporting a failure leaves the buffer
    text alone. *)
Lemma report_error_text h result s r s' :
  report_error h result s = (r, s') -> v_text (view s') = v_text (view s).
Proof.
  unfold report_error. destruct (error result) as [err|]; [|intros [= _ <-]; reflexivity].
  unfold bind, lift, print, st_status_message, emit, builtin_command, builtin_effect,
    view_call, ret.
  destruct (full_message err) as [msg|e]; [|intros [= _ <-]; reflexivity].
  cbn [view log]. destruct (line err) as [n|e]; [|intros [= _ <-]; reflexivity].
  change (str_eqb (u "goto_line") (u "goto_line")) with true.
  cbn [assoc]. change (str_eqb (u "line") (u "line")) with true.
  cbn [view log].
  destruct (status_message err) as [st|e]; intros [= _ <-]; reflexivity.
Qed.

Lemma run_reaches_formatter h file_name s0 s1 project_root :
  reaches_formatter h file_name s0 s1 project_root ->
  run h file_name s0 = format_buffer h project_root s1 /\ view s1 = view s0.
Proof.
  intros (root_opt & b & Hf & -> & Hc & Hb). split.
  - unfold run, bind, lift. rewrite Hf. cbn zeta. rewrite Hc, Hb. reflexivity.
  - eapply check_blacklisted_view, Hc.
Qed.

Lemma run_concludes h file_name s0 s1 project_root stdout stderr exit_code :
  reaches_formatter h file_name s0 s1 project_root ->
  formatter_answers h s0 project_root stdout stderr exit_code ->
  run h file_name s0 =
    conclude h (v_text (view s0)) (MixFormatResult_init stdout stderr exit_code)
      (logged s1 (EvPopen (formatter_popen h (v_text (view s0)) project_root))).
Proof.
  intros Hr Ha. apply run_reaches_formatter in Hr as [-> Hv].
  rewrite format_buffer_spec. cbn zeta. rewrite Hv.
  unfold formatter_answers in Ha. rewrite Ha. reflexivity.
Qed.

End ReportTheory.

(** ** When a successful run replaces the buffer *)

Section Replacement.

(** [is_changed] holds exactly when the source text ends with white space
    and differs from the formatter's output after both are trimmed. *)
Lemma is_changed_iff result source_text :
  is_changed result source_text = true <->
  ends_with_space source_text /\
  trim_trailing_ws_and_lines (Some source_text) <>
    trim_trailing_ws_and_lines (Some (pretty_text result)).
Proof.
  unfold is_changed, option_str_eqb. rewrite andb_true_iff, !negb_true_iff.
  rewrite !bool_decide_eq_false. cbn [trim_trailing_ws_and_lines].
  split; intros [H1 H2]; (split; [|exact H2]).
  - destruct (ends_with_space_dec source_text) as [He|He]; [exact He|].
    exfalso. apply H1. f_equal. apply sub_trailing_ws_fixed, He.
  - intros [= E]. apply sub_trailing_ws_fixed in E. contradiction.
Qed.

(** What a successful formatter leads to. *)
Lemma run_success h file_name s0 s1 project_root stdout stderr :
  reaches_formatter h file_name s0 s1 project_root ->
  formatter_answers h s0 project_root stdout stderr 0 ->
  let source_text := v_text (view s0) in
  let p := formatter_popen h source_text project_root in
  run h file_name s0 =
    if is_changed (MixFormatResult_init stdout stderr 0) source_text
    then (Ok tt, mkSt (formatted_view h (view s0) stdout)
                      (log s1 ++ EvPopen p :: replacement_events (view s0) stdout))
    else (Ok tt, mkSt (view s0) (log s1 ++ [EvPopen p; unchanged_notice])).
Proof.
  intros Hr Ha. cbn zeta. rewrite (run_concludes _ _ _ _ _ _ _ _ Hr Ha).
  apply run_reaches_formatter in Hr as [_ Hv].
  unfold conclude, is_equal.
  change (is_successful (MixFormatResult_init stdout stderr 0)) with true. cbn iota.
  destruct (is_changed _ _); cbn [negb].
  - replace (v_text (view s0)) with
      (v_text (view (logged s1 (EvPopen (formatter_popen h (v_text (view s0)) project_root)))))
      at 1 by (cbn [logged view]; rewrite Hv; reflexivity).
    rewrite apply_result_spec. cbn [logged view log pretty_text r_stdout MixFormatResult_init].
    rewrite Hv, <- app_assoc. reflexivity.
  - unfold print, emit, logged, unchanged_notice. cbn [view log].
    rewrite Hv, <- app_assoc. reflexivity.
Qed.

End Replacement.

(** ** The fields of an error *)

Section ErrorFields.

Lemma decimal_not_newline g :
  forallb is_decimal g = true -> forallb any_but_newline g = true.
Proof.
  rewrite !forallb_forall. intros H c Hc. specialize (H c Hc).
  unfold any_but_newline. destruct (N.eqb_spec c NL) as [->|]; [|reflexivity].
  vm_compute in H. discriminate.
Qed.

Lemma not_newline c : c <> NL -> any_but_newline c = true.
Proof. intros H. unfold any_but_newline. destruct (N.eqb_spec c NL); [contradiction | reflexivity]. Qed.

(** The fields of the error of a failed run, when the search matched. *)
Lemma error_fields stderr m :
  search SYNTAX_ERROR_RE stderr = Some m ->
  exists pre rest w1 w2 w3 g1 g2 g3 g4 n,
    syntax_error_in stderr pre rest w1 w2 w3 g1 g2 g3 g4 /\
    group m 0 = Some (syntax_error_text w1 w2 w3 g1 g2 g3 g4) /\
    group m 1 = Some g1 /\ group m 3 = Some g3 /\ group m 4 = Some g4 /\
    py_int (Some g3) = Ok n /\ digits_value 0 g3 = Some n /\
    exception (MixFormatError_init stderr) = Ok (Some g1) /\
    line (MixFormatError_init stderr) = Ok n /\
    reason (MixFormatError_init stderr) = Ok (Some g4) /\
    full_message (MixFormatError_init stderr) =
      Ok (Some (syntax_error_text w1 w2 w3 g1 g2 g3 g4)) /\
    status_message (MixFormatError_init stderr) = Ok (g1 ++ u " - " ++ g4).
Proof.
  intros Hs.
  destruct (search_syntax_error_sound _ _ Hs)
    as (pre & rest & w1 & w2 & w3 & g1 & g2 & g3 & g4 & Hin & H0 & H1 & H2 & H3 & H4).
  assert (Hd : digit_run g3) by (destruct Hin as [_ Hp]; unfold syntax_error_parts in Hp; tauto).
  destruct (py_int_digit_run g3 Hd) as (n & Hn & Hv & _).
  exists pre, rest, w1, w2, w3, g1, g2, g3, g4, n.
  unfold exception, line, reason, full_message, status_message, exception, reason,
    matches_group, MixFormatError_init, res_bind. cbn [e_matches].
  rewrite Hs, H0, H1, H3, H4, Hn. cbn [py_str].
  split; [exact Hin|]. repeat (split; [first [assumption | reflexivity]|]). reflexivity.
Qed.

Lemma syntax_error_one_line stderr pre rest w1 w2 w3 g1 g2 g3 g4 :
  syntax_error_in stderr pre rest w1 w2 w3 g1 g2 g3 g4 ->
  w1 <> NL -> w2 <> NL -> w3 <> NL ->
  is_line_of stderr (syntax_error_text w1 w2 w3 g1 g2 g3 g4).
Proof.
  intros [Htext Hp] N1 N2 N3. exists pre, rest.
  destruct Hp as (Hbol & Heol & _ & _ & _ & [_ P1] & [_ P2] & [_ P3] & [_ P4]).
  repeat split; try assumption.
  pose proof (decimal_not_newline _ P3) as P3'.
  unfold syntax_error_text, str, codepoint in *. rewrite !forallb_app.
  rewrite P1, P2, P4, P3'. cbn [forallb].
  rewrite (not_newline _ N1), (not_newline _ N2), (not_newline _ N3). reflexivity.
Qed.

End ErrorFields.

(** ** Errors without a match *)

Section NoMatch.

Lemma no_match_iff stderr :
  search SYNTAX_ERROR_RE stderr = None <-> ~ has_syntax_error stderr.
Proof.
  rewrite <- search_syntax_error_iff. destruct (search SYNTAX_ERROR_RE stderr).
  - split; [discriminate|]. intros H. exfalso. apply H. eauto.
  - split; [|reflexivity]. intros _ [m Hm]. discriminate.
Qed.




End NoMatch.

(** ** Which files the command formats *)

Section PreSave.


End PreSave.

(** ** The environment of the processes *)

Section Environment.

Lemma process_environ_patched h a b :
  path_patch h a b -> process_environ h = <[PATH := a ++ pathsep h ++ b]> (environ h).
Proof.
  intros [Ha Hb]. unfold process_environ, patched_environ, env_lookup, pathsep_join, res_bind.
  rewrite Ha, Hb. reflexivity.
Qed.

Lemma process_environ_unpatched h :
  (forall a b, ~ path_patch h a b) -> process_environ h = environ h.
Proof.
  intros Hn. unfold process_environ, patched_environ, env_lookup, pathsep_join, res_bind.
  destruct (subscript (preferences h (u "env")) PATH) as [j|e] eqn:Ej.
  - destruct (environ h !! PATH) as [b|] eqn:Eb; [|reflexivity].
    destruct j as [| | |a| |]; try reflexivity.
    exfalso. apply (Hn a b). split; assumption.
  - unfold subscript in Ej. destruct (preferences h (u "env")); try (injection Ej as <-; reflexivity).
    destruct (assoc PATH kvs); [discriminate|]. injection Ej as <-. reflexivity.
Qed.

Lemma formatter_popen_env h source_text project_root :
  p_env (formatter_popen h source_text project_root) = process_environ h.
Proof. unfold formatter_popen, mix_popen. destruct (is_windows h); reflexivity. Qed.

Lemma check_popen_env h project_root file_name :
  p_env (check_popen h project_root file_name) = process_environ h.
Proof. unfold check_popen, command_popen. destruct (is_windows h); reflexivity. Qed.

End Environment.

(** ** [find_project] on a path of slashes *)

Section FindProject.

Lemma find_project_step h depth cwd :
  find_project h (S depth) (Some cwd) =
    if str_eqb (or_else (Some cwd) (getcwd h)) OsPath.realpath_root then Ok None
    else if fs_exists h (OsPath.join (or_else (Some cwd) (getcwd h)) (u "mix.exs"))
         then Ok (Some (or_else (Some cwd) (getcwd h)))
         else find_project h depth (Some (OsPath.dirname (or_else (Some cwd) (getcwd h)))).
Proof. reflexivity. Qed.

(** [dirname] maps ["//"] to itself, and ["//"] is not ["/"]: from there
    [find_project] calls itself with the same argument until the
    interpreter gives up. *)
Lemma find_project_double_slash h depth :
  fs_exists h (u "//mix.exs") = false ->
  find_project h depth (Some (u "//")) = Raise RecursionError.
Proof.
  intros Hfs. induction depth as [|depth IH]; [reflexivity|].
  rewrite find_project_step.
  change (or_else (Some (u "//")) (getcwd h)) with (u "//").
  change (str_eqb (u "//") OsPath.realpath_root) with false. cbn iota.
  change (OsPath.join (u "//") (u "mix.exs")) with (u "//mix.exs"). rewrite Hfs.
  exact IH.
Qed.

End FindProject.

(** ** [dirname] and the walk of [find_project] *)

Section Ancestors.

Local Open Scope nat_scope.

Lemma rfind_from_spec c s : forall i last,
  (~ In c s /\ rfind_from c s i last = last) \/
  (exists a b, s = a ++ c :: b /\ ~ In c b /\
               rfind_from c s i last = (i + Z.of_nat (length a))%Z).
Proof.
  induction s as [|x s IH]; intros i last; simpl.
  - left. auto.
  - destruct (IH (i + 1)%Z (if N.eqb x c then i else last)) as [[Hn E]|(a & b & -> & Hb & E)].
    + destruct (N.eqb_spec x c) as [->|Hx].
      * right. exists [], s. simpl. repeat split; [assumption | lia].
      * left. split; [intros [H|H]; [congruence | contradiction] | exact E].
    + right. exists (x :: a), b. simpl. repeat split; [assumption | lia].
Qed.

Lemma rstrip_char_cons_ne c x s : x <> c -> rstrip_char c (x :: s) = x :: rstrip_char c s.
Proof.
  intros H. simpl. destruct (rstrip_char c s); [|reflexivity].
  destruct (N.eqb_spec x c); [contradiction | reflexivity].
Qed.

Lemma rstrip_char_snoc c s : rstrip_char c (s ++ [c]) = rstrip_char c s.
Proof.
  induction s as [|x s IH]; simpl.
  - rewrite N.eqb_refl. reflexivity.
  - rewrite IH. reflexivity.
Qed.

Lemma rstrip_char_length c s : length (rstrip_char c s) <= length s.
Proof.
  induction s as [|x s IH]; simpl; [lia|].
  destruct (rstrip_char c s); simpl in *; [destruct (N.eqb x c); simpl; lia | lia].
Qed.

(** [dirname] of a path with a slash: the part up to the last slash,
    without trailing slashes unless it is made of slashes only. *)
Lemma dirname_split a b :
  ~ In SLASH b ->
  OsPath.dirname (a ++ SLASH :: b) =
    if str_eqb (a ++ [SLASH]) (repeat SLASH (length (a ++ [SLASH])))
    then a ++ [SLASH]
    else rstrip_char SLASH a.
Proof.
  intros Hb. unfold OsPath.dirname, rfind, upto.
  destruct (rfind_from_spec SLASH (a ++ SLASH :: b) 0%Z (-1)%Z) as [[Hn _]|(a' & b' & E & Hb' & ->)].
  { exfalso. apply Hn. apply in_or_app. right. left. reflexivity. }
  assert (a' = a) as ->.
  { apply app_eq_app in E as [l [[-> E]|[-> E]]].
    - destruct l as [|x l]; [symmetry; apply app_nil_r|]. exfalso. injection E as <- ->.
      apply Hb'. apply in_or_app. right. left. reflexivity.
    - destruct l as [|x l]; [apply app_nil_r|]. exfalso. injection E as <- ->.
      apply Hb. apply in_or_app. right. left. reflexivity. }
  replace (Z.to_nat (0 + Z.of_nat (length a) + 1)) with (length a + 1) by lia.
  replace (a ++ SLASH :: b) with ((a ++ [SLASH]) ++ b) by (rewrite <- app_assoc; reflexivity).
  rewrite take_app_length' by (rewrite length_app; simpl; lia).
  assert (Ht : forall l : str, truthy (Some (l ++ [SLASH])) = true) by (intros []; reflexivity).
  rewrite Ht. cbn [andb]. destruct (str_eqb _ _); cbn [negb]; [reflexivity|].
  apply rstrip_char_snoc.
Qed.

Lemma plain_absolute_dirname p :
  plain_absolute p -> p <> OsPath.realpath_root ->
  plain_absolute (OsPath.dirname p) /\ length (OsPath.dirname p) < length p.
Proof.
  intros (rest & -> & Hrest) Hroot.
  destruct rest as [|x r]; [contradiction|].
  assert (Hx : x <> SLASH) by (intros ->; apply Hrest; reflexivity).
  destruct (rfind_from_spec SLASH (SLASH :: x :: r) 0%Z (-1)%Z)
    as [[Hn _]|(a & b & E & Hb & _)].
  { exfalso. apply Hn. left. reflexivity. }
  rewrite E, (dirname_split a b Hb).
  destruct a as [|y a].
  - simpl in E. injection E as <-. cbn.
    change (str_eqb [SLASH] [SLASH]) with true. cbn iota. split.
    + exists []. split; [reflexivity | discriminate].
    + simpl. lia.
  - simpl in E. injection E as <- E. destruct a as [|z a].
    { simpl in E. injection E as -> _. contradiction. }
    simpl in E. injection E as <- ->.
    assert (Hne : str_eqb ((SLASH :: x :: a) ++ [SLASH])
                    (repeat SLASH (length ((SLASH :: x :: a) ++ [SLASH]))) = false).
    { unfold str_eqb. apply bool_decide_eq_false. rewrite length_app. simpl.
      intros [= ->]. contradiction. }
    rewrite Hne.
    assert (HS : SLASH <> SLASH -> False) by tauto.
    change (rstrip_char SLASH (SLASH :: x :: a)) with
      (match rstrip_char SLASH (x :: a) with
       | [] => if N.eqb SLASH SLASH then [] else [SLASH]
       | r => SLASH :: r
       end).
    rewrite (rstrip_char_cons_ne SLASH x a Hx). split.
    + exists (x :: rstrip_char SLASH a). split; [reflexivity|].
      simpl. intros [= ->]. contradiction.
    + pose proof (rstrip_char_length SLASH a). rewrite length_app. simpl. lia.
Qed.

Lemma find_project_ancestors h : forall depth fuel p,
  plain_absolute p -> length p <= fuel -> length p <= depth ->
  find_project h depth (Some p) =
    Ok (find (fun d => fs_exists h (OsPath.join d (u "mix.exs"))) (ancestors fuel p)).
Proof.
  induction depth as [|depth IH]; intros fuel p Hp Hf Hd.
  - destruct Hp as (rest & -> & _). simpl in Hd. lia.
  - destruct fuel as [|fuel]; [destruct Hp as (rest & -> & _); simpl in Hf; lia|].
    rewrite find_project_step.
    assert (Hor : or_else (Some p) (getcwd h) = p) by (destruct Hp as (rest & -> & _); reflexivity).
    rewrite Hor. cbn [ancestors].
    destruct (str_eqb p OsPath.realpath_root) eqn:E; [reflexivity|].
    cbn [find]. destruct (fs_exists h _); [reflexivity|].
    assert (Hroot : p <> OsPath.realpath_root).
    { unfold str_eqb in E. apply bool_decide_eq_false in E. exact E. }
    destruct (plain_absolute_dirname p Hp Hroot) as [Hp' Hlt].
    apply IH; [exact Hp' | lia | lia].
Qed.

Lemma rstrip_char_nil c s : rstrip_char c s = [] -> s = repeat c (length s).
Proof.
  induction s as [|x s IH]; simpl; [reflexivity|].
  destruct (rstrip_char c s); [|discriminate].
  destruct (N.eqb_spec x c) as [->|]; [|discriminate].
  intros _. f_equal. apply IH. reflexivity.
Qed.

Lemma rstrip_char_cons c x s :
  rstrip_char c s <> [] -> rstrip_char c (x :: s) = x :: rstrip_char c s.
Proof. intros H. simpl. destruct (rstrip_char c s); [contradiction | reflexivity]. Qed.

(** [dirname] keeps two leading slashes. *)
Lemma double_slashed_dirname p : double_slashed p -> double_slashed (OsPath.dirname p).
Proof.
  intros (r & ->).
  destruct (rfind_from_spec SLASH (SLASH :: SLASH :: r) 0%Z (-1)%Z)
    as [[Hn _]|(a & b & E & Hb & _)].
  { exfalso. apply Hn. left. reflexivity. }
  rewrite E, (dirname_split a b Hb).
  destruct a as [|y a].
  { simpl in E. injection E as <-. exfalso. apply Hb. left. reflexivity. }
  simpl in E. injection E as <- E.
  destruct a as [|x a].
  { change (str_eqb ([SLASH] ++ [SLASH]) (repeat SLASH (length ([SLASH] ++ [SLASH]))))
      with true. cbn iota. exists []. reflexivity. }
  simpl in E. injection E as <- ->.
  destruct (str_eqb _ _) eqn:Eq.
  - exists (a ++ [SLASH]). reflexivity.
  - assert (Hr : rstrip_char SLASH a <> []).
    { intros Hr. apply rstrip_char_nil in Hr.
      unfold str_eqb in Eq. apply bool_decide_eq_false in Eq. apply Eq.
      remember (length a) as k eqn:Hk. clear Hk. subst a.
      rewrite length_app. cbn [length]. rewrite repeat_length.
      replace (S (S k) + 1) with (S (S (S k))) by lia.
      cbn [repeat app]. do 2 f_equal. symmetry. apply repeat_cons. }
    rewrite rstrip_char_cons, rstrip_char_cons; [eexists; reflexivity | exact Hr |].
    rewrite rstrip_char_cons by exact Hr. discriminate.
Qed.

(** From a path that starts with two slashes [find_project] never answers
    [None]: it finds a [mix.exs] or raises. *)
Lemma find_project_double_slashed h : forall depth p,
  double_slashed p -> find_project h depth (Some p) <> Ok None.
Proof.
  induction depth as [|depth IH]; intros p Hp; [discriminate|].
  rewrite find_project_step.
  assert (Hor : or_else (Some p) (getcwd h) = p) by (destruct Hp as (r & ->); reflexivity).
  rewrite Hor.
  assert (Hne : str_eqb p OsPath.realpath_root = false).
  { destruct Hp as (r & ->). apply bool_decide_eq_false. discriminate. }
  rewrite Hne. destruct (fs_exists h _); [discriminate|].
  apply IH, double_slashed_dirname, Hp.
Qed.

End Ancestors.

(** ** The outcomes of [run] *)

Lemma find_project_raises h : forall depth cwd e,
  find_project h depth cwd = Raise e -> e = RecursionError.
Proof.
  induction depth as [|depth IH]; intros cwd e; simpl.
  - intros [= <-]. reflexivity.
  - destruct (str_eqb _ _); [discriminate|].
    destruct (fs_exists h _); [discriminate|]. apply IH.
Qed.

(** [run] reaches the formatter exactly when the project lookup returns and
    the check lets the file through; the state is then the first state, with
    the check's process in the log if there was one. *)
Lemma reaches_formatter_iff h file_name s0 s1 root :
  reaches_formatter h file_name s0 s1 root <->
  exists root_opt,
    find_project h (recursion_limit h) (Some file_name) = Ok root_opt /\
    root = project_root_of root_opt file_name /\
    check_passes h root (file_name_rel_of root file_name) = true /\
    s1 = mkSt (view s0)
              (log s0 ++ map EvPopen
                           (check_processes h root (file_name_rel_of root file_name))).
Proof.
  unfold reaches_formatter, check_passes, check_processes. split.
  - intros (root_opt & b & Hf & -> & Hc & Hb). exists root_opt.
    rewrite check_blacklisted_spec in Hc.
    destruct (fs_isfile h _).
    + destruct (communicate h _) as [[[out err] code]|e]; [|discriminate].
      injection Hc as <- <-. cbn [is_true] in Hb. rewrite Hb. auto.
    + injection Hc as <- <-. cbn [map]. rewrite app_nil_r. destruct s0; auto.
  - intros (root_opt & Hf & -> & Hp & ->). exists root_opt.
    rewrite check_blacklisted_spec.
    destruct (fs_isfile h _).
    + destruct (communicate h _) as [[[out err] code]|e]; [|discriminate].
      eexists. repeat split; [assumption|]. cbn [is_true].
      destruct (contains _ out); [discriminate | reflexivity].
    + exists None. cbn [map]. rewrite app_nil_r. destruct s0; auto.
Qed.

(** Every call of [run] comes to one of the eight outcomes. *)
Lemma run_outcome_holds h file_name s0 : run_outcome h file_name s0 (run h file_name s0).
Proof.
  destruct (find_project h (recursion_limit h) (Some file_name)) as [root_opt|e] eqn:Hf.
  2:{ pose proof (find_project_raises _ _ _ _ Hf) as ->.
      replace (run h file_name s0) with (@Raise unit RecursionError, s0)
        by (unfold run, bind, lift; rewrite Hf; reflexivity).
      apply NoProject, Hf. }
  set (root := project_root_of root_opt file_name).
  set (rel := file_name_rel_of root file_name).
  destruct (check_blacklisted_in_config h root rel s0) as [[b|e] s1] eqn:Hc.
  2:{ replace (run h file_name s0) with (@Raise unit e, s1)
        by (unfold run, bind, lift; rewrite Hf; cbn zeta; fold root; fold rel;
            rewrite Hc; reflexivity).
      rewrite check_blacklisted_spec in Hc.
      destruct (fs_isfile h _) eqn:Hfile; [|discriminate].
      destruct (communicate h _) as [[[out err] code]|e'] eqn:Hcomm; [discriminate|].
      injection Hc as <- <-. eapply CheckFailed; eassumption. }
  destruct (is_true b) eqn:Hb.
  { replace (run h file_name s0) with (print (skip_message rel) s1)
      by (unfold run, bind, lift; rewrite Hf; cbn zeta; fold root; fold rel;
          rewrite Hc, Hb; reflexivity).
    rewrite check_blacklisted_spec in Hc.
    destruct (fs_isfile h _) eqn:Hfile; [|injection Hc as <- <-; discriminate].
    destruct (communicate h _) as [[[out err] code]|e'] eqn:Hcomm; [|discriminate].
    injection Hc as <- <-. cbn [is_true] in Hb.
    unfold print, emit, logged. cbn [view log]. rewrite <- app_assoc.
    eapply Skipped; eassumption. }
  assert (Hr : reaches_formatter h file_name s0 s1 root) by (exists root_opt, b; auto).
  destruct (run_reaches_formatter _ _ _ _ _ Hr) as [Hrun Hv].
  destruct (communicate h (formatter_popen h (v_text (view s0)) root))
    as [[[out err] code]|e] eqn:Hcomm.
  2:{ rewrite Hrun, format_buffer_spec. cbn zeta. rewrite Hv, Hcomm.
      apply FormatterFailed; assumption. }
  destruct (Z.eq_dec code 0) as [->|Hcode].
  - rewrite (run_success _ _ _ _ _ _ _ Hr Hcomm). cbn zeta.
    destruct (is_changed _ _) eqn:E.
    + eapply Replaced; eassumption.
    + eapply Unchanged; eassumption.
  - rewrite (run_concludes _ _ _ _ _ _ _ _ Hr Hcomm). unfold conclude.
    assert (Hfail : is_successful (MixFormatResult_init out err code) = false).
    { destruct (is_successful _) eqn:E; [|reflexivity].
      apply is_successful_iff in E. contradiction. }
    rewrite Hfail.
    destruct (search SYNTAX_ERROR_RE err) as [m|] eqn:Hs.
    + destruct (error_fields _ _ Hs)
        as (pre & rest & w1 & w2 & w3 & g1 & g2 & g3 & g4 & n & _ & H0 & H1 & H3 & H4 &
            Hn & _ & _ & Hl & _ & Hfm & Hst).
      rewrite (report_error_match h out err code _ m _ g1 g3 g4 n Hcode Hs H0 H1 H3 H4 Hn).
      cbn [logged view log]. rewrite Hv, <- app_assoc.
      eapply Reported; eassumption.
    + rewrite (report_error_no_match _ _ _ _ _ Hcode Hs).
      eapply Unreported; eassumption.
Qed.

(** [run] puts the formatter's output into the buffer when [formats_to]
    holds of the buffer's text. *)
Lemma formats_to_run h file_name s stdout :
  formats_to h file_name (v_text (view s)) stdout ->
  v_text (view (snd (run h file_name s))) = stdout.
Proof.
  intros (root_opt & stderr & Hf & Hp & Hc & Hch).
  assert (Hr : reaches_formatter h file_name s
                 (mkSt (view s)
                       (log s ++ map EvPopen
                          (check_processes h (project_root_of root_opt file_name)
                             (file_name_rel_of (project_root_of root_opt file_name) file_name))))
                 (project_root_of root_opt file_name)).
  { apply reaches_formatter_iff. exists root_opt. auto. }
  rewrite (run_success _ _ _ _ _ _ _ Hr Hc). cbn zeta. rewrite Hch. reflexivity.
Qed.

(** [run] changes the buffer's text only when [formats_to] holds of it. *)
Lemma run_changes_text h file_name s :
  v_text (view (snd (run h file_name s))) <> v_text (view s) ->
  exists stdout, formats_to h file_name (v_text (view s)) stdout.
Proof.
  intros Hne.
  destruct (run_outcome_holds h file_name s);
    try (exfalso; apply Hne; reflexivity);
    try (exfalso; apply Hne; cbn [snd logged view];
         match goal with H : reaches_formatter _ _ _ _ _ |- _ =>
           apply run_reaches_formatter in H as [_ ->] end; reflexivity).
  match goal with H : reaches_formatter _ _ _ _ _ |- _ =>
    apply reaches_formatter_iff in H as (root_opt & Hf & -> & Hp & _) end.
  exists stdout, root_opt, stderr. auto.
Qed.

(** A formatter output that is the buffer's text is no change. *)
Lemma is_changed_same stdout stderr code :
  is_changed (MixFormatResult_init stdout stderr code) stdout = false.
Proof.
  unfold is_changed, option_str_eqb, pretty_text, MixFormatResult_init. cbn [r_stdout].
  rewrite (bool_decide_eq_true_2 (trim_trailing_ws_and_lines (Some stdout) =
                                  trim_trailing_ws_and_lines (Some stdout))) by reflexivity.
  apply andb_false_r.
Qed.

Lemma popens_app a b : popens (a ++ b) = popens a ++ popens b.
Proof. unfold popens. apply flat_map_app. Qed.

Lemma popens_map ps : popens (map EvPopen ps) = ps.
Proof. induction ps as [|p ps IH]; [reflexivity|]. cbn. f_equal. exact IH. Qed.

(** ** The directories [find_project] walks through *)

Lemma rstrip_char_prefix c s : rstrip_char c s `prefix_of` s.
Proof.
  induction s as [|x s IH]; simpl; [reflexivity|].
  destruct (rstrip_char c s) as [|y r].
  - destruct (N.eqb x c); [apply prefix_nil | apply prefix_cons, prefix_nil].
  - apply prefix_cons, IH.
Qed.

(** [dirname] cuts a path at its end. *)
Lemma dirname_prefix p : OsPath.dirname p `prefix_of` p.
Proof.
  unfold OsPath.dirname, upto. cbn zeta.
  destruct (_ && _).
  - etransitivity; [apply rstrip_char_prefix | apply prefix_take].
  - apply prefix_take.
Qed.

(** The parent of an absolute path is an absolute path. *)
Lemma dirname_absolute p : head p = Some SLASH -> head (OsPath.dirname p) = Some SLASH.
Proof.
  destruct p as [|x r]; [discriminate|]. intros [= ->].
  destruct (rfind_from_spec SLASH (SLASH :: r) 0%Z (-1)%Z)
    as [[Hn _]|(a & b & E & Hb & _)].
  { exfalso. apply Hn. left. reflexivity. }
  rewrite E, (dirname_split a b Hb).
  destruct (str_eqb _ _) eqn:Eq.
  - destruct a as [|y a]; [reflexivity|]. injection E as <- _. reflexivity.
  - destruct a as [|y a]; [discriminate Eq|]. injection E as <- E.
    destruct (rstrip_char SLASH (SLASH :: a)) as [|z t] eqn:Er.
    + apply rstrip_char_nil in Er. exfalso.
      apply bool_decide_eq_false in Eq. apply Eq.
      rewrite length_app, repeat_app. cbn [length repeat].
      change (SLASH :: repeat SLASH (length a)) with (repeat SLASH (length (SLASH :: a))).
      rewrite <- Er. reflexivity.
    + pose proof (rstrip_char_prefix SLASH (SLASH :: a)) as Hp. rewrite Er in Hp.
      destruct Hp as [k Hk]. injection Hk as -> _. reflexivity.
Qed.

Lemma or_else_absolute p d : head p = Some SLASH -> or_else (Some p) d = p.
Proof. destruct p; [discriminate | reflexivity]. Qed.

(** From an absolute path the walk never leaves the path's parents. *)
Lemma find_project_found_absolute h : forall depth p d,
  head p = Some SLASH ->
  find_project h depth (Some p) = Ok (Some d) ->
  d `prefix_of` p /\ head d = Some SLASH.
Proof.
  induction depth as [|depth IH]; intros p d Hp; [discriminate|].
  rewrite find_project_step, (or_else_absolute _ _ Hp).
  destruct (str_eqb p OsPath.realpath_root); [discriminate|].
  destruct (fs_exists h _).
  - intros [= <-]. split; [reflexivity | exact Hp].
  - intros H. apply IH in H as [H1 H2]; [|apply dirname_absolute, Hp].
    split; [|exact H2]. etransitivity; [exact H1 | apply dirname_prefix].
Qed.

(** ** [str.replace] *)

Lemma startswith_app p s : startswith p (p ++ s) = true.
Proof. induction p as [|c p IH]; [reflexivity|]. simpl. rewrite N.eqb_refl. exact IH. Qed.

(** The characters of an occurrence still to be dropped are dropped. *)
Lemma replace_go_skip old new a s :
  replace_go old new (length a) (a ++ s) = replace_go old new O s.
Proof. induction a as [|c a IH]; [reflexivity|]. exact IH. Qed.

(** An occurrence at the start is replaced, and the search goes on behind
    it. *)
Lemma replace_at_start old new s :
  old <> [] -> replace old new (old ++ s) = new ++ replace old new s.
Proof.
  destruct old as [|c old]; [congruence|]. intros _. unfold replace.
  change ((c :: old) ++ s) with (c :: (old ++ s)). cbn [replace_go].
  change (c :: old ++ s) with ((c :: old) ++ s). rewrite startswith_app.
  cbn [length Nat.pred]. rewrite replace_go_skip. reflexivity.
Qed.

(** A text without an occurrence stays as it is. *)
Lemma replace_absent old new s :
  old <> [] -> contains old s = false -> replace old new s = s.
Proof.
  destruct old as [|c old]; [congruence|]. intros _. unfold replace.
  induction s as [|x s IH]; [reflexivity|].
  cbn [contains]. intros [H1 H2]%orb_false_elim.
  cbn [replace_go]. rewrite H1. f_equal. apply IH, H2.
Qed.

(** ** [rfind] and [splitext] *)

Lemma rfind_from_absent c s : forall i last, ~ In c s -> rfind_from c s i last = last.
Proof.
  induction s as [|x s IH]; intros i last Hn; [reflexivity|]. simpl.
  destruct (N.eqb_spec x c) as [->|_].
  - exfalso. apply Hn. left. reflexivity.
  - apply IH. intros H. apply Hn. right. exact H.
Qed.

Lemma rfind_from_last c a b : forall i last,
  ~ In c b -> rfind_from c (a ++ c :: b) i last = (i + Z.of_nat (length a))%Z.
Proof.
  induction a as [|x a IH]; intros i last Hn.
  - simpl. rewrite N.eqb_refl, (rfind_from_absent _ _ _ _ Hn). lia.
  - cbn [app rfind_from]. rewrite (IH _ _ Hn). cbn [length]. lia.
Qed.

Lemma rfind_absent c s : ~ In c s -> rfind c s = (-1)%Z.
Proof. apply rfind_from_absent. Qed.

Lemma rfind_last c a b : ~ In c b -> rfind c (a ++ c :: b) = Z.of_nat (length a).
Proof. intros H. unfold rfind. rewrite (rfind_from_last _ _ _ _ _ H). lia. Qed.

(** A text is without [c], or has a last [c]. *)
Lemma last_occurrence c (s : str) :
  ~ In c s \/ exists a b, s = a ++ c :: b /\ ~ In c b.
Proof.
  destruct (rfind_from_spec c s 0%Z (-1)%Z) as [[H _]|(a & b & E & H & _)]; eauto.
Qed.

(** The name of a file: the part of the path behind its last slash. *)
Lemma path_split (p : str) :
  exists dir name, p = dir ++ name /\ ~ In SLASH name /\
    (dir = [] \/ last dir = Some SLASH) /\
    rfind SLASH p = (Z.of_nat (length dir) - 1)%Z.
Proof.
  destruct (last_occurrence SLASH p) as [H|(a & b & -> & H)].
  - exists [], p. repeat split; auto. rewrite (rfind_absent _ _ H). reflexivity.
  - exists (a ++ [SLASH]), b. rewrite <- app_assoc. repeat split; auto.
    + right. apply last_snoc.
    + rewrite (rfind_last _ _ _ H), length_app. cbn [length]. lia.
Qed.

Lemma has_non_dot_iff s : OsPath.has_non_dot s = true <-> exists c, In c s /\ c <> DOT.
Proof.
  induction s as [|x s IH]; simpl.
  - split; [discriminate | intros (c & [] & _)].
  - rewrite orb_true_iff, IH, negb_true_iff, N.eqb_neq. split.
    + intros [H|(c & H1 & H2)]; [exists x; auto | exists c; auto].
    + intros (c & [->|H1] & H2); [left; exact H2 | right; exists c; auto].
Qed.

(** [splitext] of a path whose file name is [name], a dot and [ext], where
    [name] is not made of dots only and [ext] has no dot: the extension is
    the dot and [ext]. *)
Lemma splitext_name_ext dir name ext :
  (dir = [] \/ last dir = Some SLASH) -> ~ In SLASH name -> ~ In SLASH ext ->
  ~ In DOT ext -> OsPath.has_non_dot name = true ->
  OsPath.splitext (dir ++ name ++ DOT :: ext) = (dir ++ name, DOT :: ext).
Proof.
  intros Hdir Hname Hext Hdot Hnd. unfold OsPath.splitext. cbn zeta.
  assert (Hd : rfind DOT (dir ++ name ++ DOT :: ext) =
               Z.of_nat (length (dir ++ name))).
  { rewrite app_assoc. apply rfind_last, Hdot. }
  assert (Hs : rfind SLASH (dir ++ name ++ DOT :: ext) = (Z.of_nat (length dir) - 1)%Z).
  { assert (Hn : ~ In SLASH (name ++ DOT :: ext)).
    { intros [H|[H|H]]%in_app_or; [auto | discriminate | auto]. }
    destruct Hdir as [->|Hl].
    - cbn [app length]. rewrite (rfind_absent _ _ Hn). reflexivity.
    - destruct (exists_last (l := dir)) as (d & x & ->); [intros ->; discriminate|].
      rewrite last_snoc in Hl. injection Hl as ->.
      rewrite <- app_assoc. cbn [app]. rewrite (rfind_last _ _ _ Hn), length_app.
      cbn [length]. lia. }
  rewrite Hd, Hs, length_app.
  replace (Z.of_nat (length dir) - 1 <? Z.of_nat (length dir + length name))%Z
    with true by (symmetry; apply Z.ltb_lt; lia).
  replace (Z.to_nat (Z.of_nat (length dir) - 1 + 1)) with (length dir) by lia.
  rewrite Nat2Z.id.
  assert (Hsl : slice (length dir) (length dir + length name)
                  (dir ++ name ++ DOT :: ext) = name)
    by (apply slice_middle; reflexivity).
  rewrite Hsl, Hnd. unfold upto, from. rewrite Nat2Z.id, <- length_app, app_assoc.
  rewrite take_app_length, drop_app_length. reflexivity.
Qed.

(** A path with an extension has a file name of that shape. *)
Lemma splitext_ext_inv p x ext :
  snd (OsPath.splitext p) = x :: ext ->
  x = DOT /\
  exists dir name,
    p = dir ++ name ++ DOT :: ext /\
    (dir = [] \/ last dir = Some SLASH) /\ ~ In SLASH name /\ ~ In SLASH ext /\
    ~ In DOT ext /\ OsPath.has_non_dot name = true.
Proof.
  unfold OsPath.splitext. cbn zeta.
  destruct (path_split p) as (dir & rest & -> & Hrest & Hdir & Hs). rewrite Hs.
  destruct (last_occurrence DOT (dir ++ rest)) as [Hn|(a & b & E & Hb)].
  { rewrite (rfind_absent _ _ Hn).
    replace (Z.of_nat (length dir) - 1 <? -1)%Z with false
      by (symmetry; apply Z.ltb_ge; lia).
    discriminate. }
  rewrite E, (rfind_last _ _ _ Hb).
  destruct (Z.ltb_spec (Z.of_nat (length dir) - 1) (Z.of_nat (length a))) as [Hlt|Hge];
    [|discriminate].
  replace (Z.to_nat (Z.of_nat (length dir) - 1 + 1)) with (length dir) by lia.
  rewrite Nat2Z.id.
  (* the last dot is in the file name *)
  assert (Hsplit : exists name, a = dir ++ name /\ rest = name ++ DOT :: b).
  { apply app_eq_app in E as [l [[-> E]|[-> E]]].
    - destruct l as [|y l].
      + exists []. rewrite !app_nil_r. simpl in E. auto.
      + exfalso. rewrite length_app in Hlt. cbn [length] in Hlt. lia.
    - exists l. auto. }
  destruct Hsplit as (name & -> & ->).
  assert (Hsl : slice (length dir) (length (dir ++ name))
                  ((dir ++ name) ++ DOT :: b) = name).
  { rewrite <- app_assoc. apply slice_middle; [reflexivity | apply length_app]. }
  rewrite Hsl. destruct (OsPath.has_non_dot name) eqn:Hnd; [|discriminate].
  unfold from. rewrite Nat2Z.id. cbn [snd]. rewrite drop_app_length.
  intros [= <- <-]. split; [reflexivity|].
  exists dir, name. split; [symmetry; exact E|]. split; [exact Hdir|].
  split; [intros H; apply Hrest, in_or_app; left; exact H|].
  split; [intros H; apply Hrest, in_or_app; right; right; exact H|].
  auto.
Qed.

(** ** The match [search] reports *)

Section Leftmost.

Local Open Scope nat_scope.

(** [search_from] reports the first position at which the pattern
    matches. *)
Lemma search_from_leftmost pat text : forall a pre t rest ms' m,
  den pat (last (pre ++ a)) t rest (length (pre ++ a)) [] ms' ->
  search_from pat text (last pre) (a ++ t ++ rest) (length pre) = Some m ->
  m_start m <= length (pre ++ a).
Proof.
  induction a as [|c a IH]; intros pre t rest ms' m D H.
  - rewrite app_nil_r in *. apply match_here_complete in D as [[e ms] E].
    cbn [app] in H.
    destruct (t ++ rest); simpl in H; rewrite E in H; injection H as <-; simpl; lia.
  - cbn [app search_from] in H.
    destruct (match_here pat (last pre) (c :: a ++ t ++ rest) (length pre) [])
      as [[e ms]|].
    { injection H as <-. simpl. rewrite length_app. lia. }
    assert (E1 : last (pre ++ [c]) = Some c) by apply last_snoc.
    assert (E2 : length (pre ++ [c]) = S (length pre))
      by (rewrite length_app; simpl; lia).
    rewrite <- E1, <- E2 in H.
    replace (pre ++ c :: a) with ((pre ++ [c]) ++ a) in *
      by (rewrite <- app_assoc; reflexivity).
    eapply IH; eassumption.
Qed.

End Leftmost.

(** ** The longest runs *)

Section GreedyTheory.

Local Open Scope nat_scope.

Lemma first_down_max {A} (f : nat -> option A) k x :
  first_down f k = Some x ->
  exists j, 1 <= j <= k /\ f j = Some x /\ forall i, j < i <= k -> f i = None.
Proof.
  induction k as [|k IH]; simpl; [discriminate|].
  destruct (f (S k)) as [y|] eqn:E.
  - intros [= <-]. exists (S k). split; [lia|]. split; [exact E|]. intros i Hi. lia.
  - intros H. destruct (IH H) as (j & Hj & Hf & Hmax). exists j.
    split; [lia|]. split; [exact Hf|]. intros i Hi.
    destruct (decide (i = S k)) as [->|Hne]; [exact E | apply Hmax; lia].
Qed.

(** The match the engine finds is the one its priorities pick. *)
Lemma match_here_greedy pat : forall prev s pos ms e ms',
  match_here pat prev s pos ms = Some (e, ms') ->
  exists t rest, s = t ++ rest /\ e = pos + length t /\ greedy pat prev t rest pos ms ms'.
Proof.
  induction pat as [|it r IH]; intros prev s pos ms e ms' H; simpl in H.
  - injection H as <- <-. exists [], s. simpl. repeat split; lia.
  - destruct it as [c|p|p| | | |n|n].
    + destruct s as [|x s']; [discriminate|].
      destruct (N.eqb x c) eqn:E; [|discriminate].
      apply N.eqb_eq in E. subst x.
      destruct (IH _ _ _ _ _ _ H) as (t & rest & -> & -> & D).
      exists (c :: t), rest. simpl. repeat split; [lia|]. exists t. auto.
    + destruct s as [|x s']; [discriminate|].
      destruct (p x) eqn:E; [|discriminate].
      destruct (IH _ _ _ _ _ _ H) as (t & rest & -> & -> & D).
      exists (x :: t), rest. simpl. repeat split; [lia|]. exists x, t. auto.
    + apply first_down_max in H. destruct H as (k & Hk & H & Hmax).
      destruct (IH _ _ _ _ _ _ H) as (t & rest & Hs & -> & D).
      pose proof (span_len_le p s) as Hle.
      exists (take k s ++ t), rest.
      assert (Hlen : length (take k s) = k) by (rewrite length_take; lia).
      assert (Htext : s = (take k s ++ t) ++ rest)
        by (rewrite <- app_assoc, <- Hs; symmetry; apply take_drop).
      split; [exact Htext|]. split; [rewrite length_app, Hlen; lia|].
      cbn [greedy]. exists (take k s), t.
      split; [intros Hnil; rewrite Hnil in Hlen; simpl in Hlen; lia|].
      split; [apply span_len_take; lia|]. split; [reflexivity|].
      split; [rewrite Hlen; exact D|].
      intros b t2 rest2 ms2 Hb Hlt Heq D2. rewrite Hlen in Hlt.
      rewrite <- Htext in Heq.
      assert (Hspan : length b <= span_len p s)
        by (rewrite Heq; apply span_len_app_ge, Hb).
      specialize (Hmax (length b) ltac:(lia)).
      apply match_here_complete in D2 as [y Hy].
      rewrite Heq, take_app_length, drop_app_length in Hmax. congruence.
    + destruct (at_bol prev) eqn:E; [|discriminate].
      destruct (IH _ _ _ _ _ _ H) as (t & rest & -> & -> & D).
      exists t, rest. simpl. auto.
    + destruct (at_eol s) eqn:E; [|discriminate].
      destruct (IH _ _ _ _ _ _ H) as (t & rest & -> & -> & D).
      exists t, rest. simpl. auto.
    + destruct s as [|x s']; [|discriminate].
      destruct (IH _ _ _ _ _ _ H) as (t & rest & Hs & -> & D).
      exists t, rest. simpl. rewrite <- Hs. auto.
    + destruct (IH _ _ _ _ _ _ H) as (t & rest & -> & -> & D).
      exists t, rest. simpl. auto.
    + destruct (IH _ _ _ _ _ _ H) as (t & rest & -> & -> & D).
      exists t, rest. simpl. auto.
Qed.

Lemma search_from_greedy pat text : forall s pre m,
  text = pre ++ s ->
  search_from pat text (last pre) s (length pre) = Some m ->
  exists pre' t rest,
    text = pre' ++ t ++ rest /\ m_string m = text /\
    m_start m = length pre' /\ m_end m = length pre' + length t /\
    greedy pat (last pre') t rest (length pre') [] (m_marks m).
Proof.
  induction s as [|c s IH]; intros pre m Htext H; simpl in H.
  - destruct (match_here pat (last pre) [] (length pre) []) as [[e ms]|] eqn:E; [|discriminate].
    injection H as <-. apply match_here_greedy in E as (t & rest & Hs & -> & D).
    exists pre, t, rest. simpl. rewrite <- Hs. auto.
  - destruct (match_here pat (last pre) (c :: s) (length pre) []) as [[e ms]|] eqn:E.
    + injection H as <-. apply match_here_greedy in E as (t & rest & Hs & -> & D).
      exists pre, t, rest. simpl. rewrite <- Hs. auto.
    + apply (IH (pre ++ [c])).
      * rewrite <- app_assoc. exact Htext.
      * rewrite last_snoc, length_app, Nat.add_1_r. exact H.
Qed.

(** The part of [SYNTAX_ERROR_RE] behind the exception denotes the rest of
    a structured error. *)
Lemma den_after_exception prev rest pos ms w2 w3 g2 g3 g4 :
  is_space w2 = true -> is_space w3 = true ->
  line_piece g2 -> digit_run g3 -> line_piece g4 -> at_eol rest = true ->
  exists ms',
    den [ Close 1; Lit 41; Cls is_space;
          Open 2; Plus any_but_newline; Close 2;
          Lit 58;
          Open 3; Plus is_decimal; Close 3;
          Lit 58; Cls is_space;
          Open 4; Plus any_but_newline; Close 4;
          Eol ]%N
      prev ([41%N; w2] ++ g2 ++ [58%N] ++ g3 ++ [58%N; w3] ++ g4) rest pos ms ms'.
Proof.
  intros Hw2 Hw3 [Hn2 Hp2] [Hn3 Hp3] [Hn4 Hp4] Heol.
  eexists. simpl.
  eexists. split; [reflexivity|].
  exists w2. eexists. split; [reflexivity|]. split; [exact Hw2|].
  exists g2. eexists. split; [exact Hn2|]. split; [exact Hp2|]. split; [reflexivity|].
  eexists. split; [reflexivity|].
  exists g3. eexists. split; [exact Hn3|]. split; [exact Hp3|]. split; [reflexivity|].
  eexists. split; [reflexivity|].
  exists w3. eexists. split; [reflexivity|]. split; [exact Hw3|].
  exists g4, []. split; [exact Hn4|]. split; [exact Hp4|].
  split; [symmetry; apply app_nil_r|].
  split; [exact Heol|]. split; reflexivity.
Qed.

(** The part of [SYNTAX_ERROR_RE] behind the file denotes the rest of a
    structured error. *)
Lemma den_after_file prev rest pos ms w3 g3 g4 :
  is_space w3 = true -> digit_run g3 -> line_piece g4 -> at_eol rest = true ->
  exists ms',
    den [ Close 2;
          Lit 58;
          Open 3; Plus is_decimal; Close 3;
          Lit 58; Cls is_space;
          Open 4; Plus any_but_newline; Close 4;
          Eol ]%N
      prev ([58%N] ++ g3 ++ [58%N; w3] ++ g4) rest pos ms ms'.
Proof.
  intros Hw3 [Hn3 Hp3] [Hn4 Hp4] Heol.
  eexists. simpl.
  eexists. split; [reflexivity|].
  exists g3. eexists. split; [exact Hn3|]. split; [exact Hp3|]. split; [reflexivity|].
  eexists. split; [reflexivity|].
  exists w3. eexists. split; [reflexivity|]. split; [exact Hw3|].
  exists g4, []. split; [exact Hn4|]. split; [exact Hp4|].
  split; [symmetry; apply app_nil_r|].
  split; [exact Heol|]. split; reflexivity.
Qed.

(** A match of [SYNTAX_ERROR_RE] the engine picks: its parts, and what it
    has over the other structured errors at the same place: the longest
    exception, and with it the longest file. *)
Lemma greedy_syntax_error prev t rest pos ms' :
  greedy SYNTAX_ERROR_RE prev t rest pos [] ms' ->
  exists w1 w2 w3 g1 g2 g3 g4,
    t = syntax_error_text w1 w2 w3 g1 g2 g3 g4 /\
    syntax_error_parts prev rest w1 w2 w3 g1 g2 g3 g4 /\
    ms' = syntax_error_marks pos g1 g2 g3 g4 /\
    forall rest' w1' w2' w3' g1' g2' g3' g4',
      t ++ rest = syntax_error_text w1' w2' w3' g1' g2' g3' g4' ++ rest' ->
      syntax_error_parts prev rest' w1' w2' w3' g1' g2' g3' g4' ->
      length g1' <= length g1 /\
      (length g1' = length g1 -> length g2' <= length g2).
Proof.
  unfold SYNTAX_ERROR_RE. cbn [greedy].
  intros (Hbol & t1 & -> & t2 & -> & w1 & t3 & -> & Hw1 & t4 & -> &
          g1 & t5 & Hn1 & Hp1 & -> &
          (t6 & -> & w2 & t7 & -> & Hw2 &
           g2 & t8 & Hn2 & Hp2 & -> &
           (t9 & -> &
            g3 & t10 & Hn3 & Hp3 & -> &
            (t11 & -> & w3 & t12 & -> & Hw3 &
             g4 & t13 & Hn4 & Hp4 & -> & (Heol & -> & ->) & _) & _) & Hmax2) & Hmax1).
  rewrite app_nil_r in *. cbn [app] in Heol.
  exists w1, w2, w3, g1, g2, g3, g4.
  split; [reflexivity|].
  split; [unfold syntax_error_parts, line_piece, digit_run; tauto|].
  split; [unfold syntax_error_marks; simpl; repeat f_equal; lia|].
  intros rest' w1' w2' w3' g1' g2' g3' g4' Heq
         (_ & Heol' & Hw1' & Hw2' & Hw3' & Hg1' & Hg2' & Hg3' & Hg4').
  unfold syntax_error_text in Heq. cbn [app] in Heq. rewrite <- !app_assoc in Heq.
  cbn [app] in Heq. injection Heq as <- Heq.
  split.
  - destruct (le_lt_dec (length g1') (length g1)) as [H|H]; [exact H|]. exfalso.
    destruct (den_after_exception (last g1') rest' (S (S (S (S pos))) + length g1')
                [(2 * 1, S (S (S (S pos))))] w2' w3' g2' g3' g4'
                Hw2' Hw3' Hg2' Hg3' Hg4' Heol') as [ms2 D].
    apply (Hmax1 g1' ([41%N; w2'] ++ g2' ++ [58%N] ++ g3' ++ [58%N; w3'] ++ g4') rest' ms2
             (proj2 Hg1') H); [|exact D].
    repeat first [rewrite <- app_assoc | progress cbn [app]].
    repeat first [rewrite <- app_assoc in Heq | progress cbn [app] in Heq].
    exact Heq.
  - intros Hlen. symmetry in Hlen.
    apply (app_inj_1 _ _ _ _ Hlen) in Heq as [<- Heq].
    injection Heq as <- Heq.
    destruct (le_lt_dec (length g2') (length g2)) as [H|H]; [exact H|]. exfalso.
    destruct (den_after_file (last g2') rest'
                (S (S (S (S (S (S pos))) + length g1)) + length g2')
                [(2 * 2, S (S (S (S (S (S pos))) + length g1)));
                 (2 * 1 + 1, S (S (S (S pos))) + length g1);
                 (2 * 1, S (S (S (S pos))))] w3' g3' g4'
                Hw3' Hg3' Hg4' Heol') as [ms2 D].
    apply (Hmax2 g2' ([58%N] ++ g3' ++ [58%N; w3'] ++ g4') rest' ms2
             (proj2 Hg2') H); [|exact D].
    repeat first [rewrite <- app_assoc | progress cbn [app]].
    repeat first [rewrite <- app_assoc in Heq | progress cbn [app] in Heq].
    exact Heq.
Qed.

Ltac slice_at x y z :=
  f_equal;
  transitivity (slice (length x) (length x + length y) (x ++ y ++ z));
  [ f_equal;
    [ rewrite ?length_app; simpl; lia
    | rewrite ?length_app; simpl; lia
    | repeat rewrite <- app_assoc; simpl; repeat rewrite <- app_assoc; reflexivity ]
  | apply slice_middle; reflexivity ].

(** The match [search] reports, among the structured errors that start
    where it starts: groups 1 and 2 are the exception and the file of one of
    them, the one with the longest exception and, with that exception, the
    longest file. *)
Lemma search_syntax_error_greedy text m :
  search SYNTAX_ERROR_RE text = Some m ->
  exists pre rest w1 w2 w3 g1 g2 g3 g4,
    syntax_error_in text pre rest w1 w2 w3 g1 g2 g3 g4 /\
    m_start m = length pre /\
    group m 1 = Some g1 /\ group m 2 = Some g2 /\
    forall rest' w1' w2' w3' g1' g2' g3' g4',
      syntax_error_in text pre rest' w1' w2' w3' g1' g2' g3' g4' ->
      length g1' <= length g1 /\
      (length g1' = length g1 -> length g2' <= length g2).
Proof.
  intros H. unfold search in H.
  apply (search_from_greedy _ text text [] m eq_refl) in H
    as (pre & t & rest & Htext & Hstr & Hstart & Hend & D).
  apply greedy_syntax_error in D
    as (w1 & w2 & w3 & g1 & g2 & g3 & g4 & -> & Hparts & Hms & Hmax).
  exists pre, rest, w1, w2, w3, g1, g2, g3, g4.
  split; [split; assumption|]. split; [exact Hstart|].
  unfold group. rewrite Hstr, Hms.
  cbn [mark syntax_error_marks Nat.mul Nat.add Nat.eqb].
  split.
  { rewrite Htext. unfold syntax_error_text.
    slice_at (pre ++ [42; 42; w1; 40]%N) g1
      ([41%N; w2] ++ g2 ++ [58%N] ++ g3 ++ [58%N; w3] ++ g4 ++ rest). }
  split.
  { rewrite Htext. unfold syntax_error_text.
    slice_at (pre ++ [42; 42; w1; 40]%N ++ g1 ++ [41%N; w2]) g2
      ([58%N] ++ g3 ++ [58%N; w3] ++ g4 ++ rest). }
  intros rest' w1' w2' w3' g1' g2' g3' g4' [Htext' Hparts'].
  apply (Hmax rest' w1' w2' w3' g1' g2' g3' g4'); [|exact Hparts'].
  rewrite Htext in Htext'. apply app_inv_head in Htext'. exact Htext'.
Qed.

End GreedyTheory.

(** * The claims *)

(** ** C1: when a successful run replaces the buffer *)

(** C1, as the claim states it, fails: the buffer ["a\n\n"] and the output
    ["a\n"] differ, yet [is_equal] holds and [run] leaves the buffer as it
    was. *)
Lemma C1_differs_yet_untouched :
  pretty_text (MixFormatResult_init (u "a" ++ [NL]) [] 0) <> u "a" ++ [NL; NL] /\
  is_equal (MixFormatResult_init (u "a" ++ [NL]) [] 0) (u "a" ++ [NL; NL]) = true /\
  v_text (view (snd (run (Sample.host (Sample.answer (u "a" ++ [NL]) [] 0)) Sample.file
                         (Sample.state_of (u "a" ++ [NL; NL]))))) = u "a" ++ [NL; NL].
Proof. split; [discriminate|]. split; vm_compute; reflexivity. Qed.

(** C1 (amended): after a successful formatter run on a buffer whose text
    ends with white space, [run] replaces the whole buffer with the
    formatter's stdout exactly when the buffer text and the stdout differ
    once trailing white space is trimmed from both, and leaves the buffer
    untouched exactly when the trimmed texts are equal; [is_equal] holds iff
    the trimmed texts are equal. *)
Theorem C1_replace_iff_trimmed_differ
    h file_name s0 s1 project_root stdout stderr :
  reaches_formatter h file_name s0 s1 project_root ->
  formatter_answers h s0 project_root stdout stderr 0 ->
  ends_with_space (v_text (view s0)) ->
  let source_text := v_text (view s0) in
  let p := formatter_popen h source_text project_root in
  let same :=
    trim_trailing_ws_and_lines (Some source_text) =
    trim_trailing_ws_and_lines (Some stdout) in
  (is_equal (MixFormatResult_init stdout stderr 0) source_text = true <-> same) /\
  (~ same <->
     run h file_name s0 =
       (Ok tt, mkSt (formatted_view h (view s0) stdout)
                    (log s1 ++ EvPopen p :: replacement_events (view s0) stdout))) /\
  (same <->
     run h file_name s0 =
       (Ok tt, mkSt (view s0) (log s1 ++ [EvPopen p; unchanged_notice]))).
Proof.
  intros Hr Ha He. cbn zeta.
  pose proof (run_success _ _ _ _ _ _ _ Hr Ha) as Hrun. cbn zeta in Hrun.
  pose proof (is_changed_iff (MixFormatResult_init stdout stderr 0) (v_text (view s0))) as Hc.
  cbn [pretty_text r_stdout MixFormatResult_init] in Hc.
  assert (Hne : forall l (a : event),
             l ++ a :: replacement_events (view s0) stdout <> l ++ [a; unchanged_notice]).
  { intros l a E. apply app_inv_head in E. discriminate. }
  unfold is_equal. destruct (is_changed _ _) eqn:E; cbn [negb].
  - apply proj1 in Hc. destruct (Hc eq_refl) as [_ Hd].
    split; [split; [discriminate | contradiction]|].
    split; [split; [intros _; exact Hrun | intros _; exact Hd]|].
    split; [contradiction|]. rewrite Hrun. intros [= _ E']. exfalso.
    eapply Hne; exact E'.
  - assert (Hs : trim_trailing_ws_and_lines (Some (v_text (view s0))) =
                 trim_trailing_ws_and_lines (Some stdout)).
    { destruct (decide (trim_trailing_ws_and_lines (Some (v_text (view s0))) =
                        trim_trailing_ws_and_lines (Some stdout))) as [Heq|Hneq];
        [exact Heq|].
      apply proj2 in Hc. specialize (Hc (conj He Hneq)). congruence. }
    split; [split; auto|].
    split; [|split; [intros _; exact Hrun | intros _; exact Hs]].
    split; [contradiction|]. rewrite Hrun. intros [= _ E']. exfalso.
    eapply Hne; symmetry; exact E'.
Qed.

(** The theorem at work: the buffer ["a  =  1\n"] and the output
    ["a = 1\n"] differ after trimming, so the buffer is replaced. *)
Lemma C1_replace_iff_trimmed_differ_witness :
  run (Sample.host (Sample.answer (u "a = 1" ++ [NL]) [] 0)) Sample.file
      (Sample.state_of (u "a  =  1" ++ [NL])) =
    (Ok tt,
     mkSt (formatted_view (Sample.host (Sample.answer (u "a = 1" ++ [NL]) [] 0))
             (Sample.view_of (u "a  =  1" ++ [NL])) (u "a = 1" ++ [NL]))
          (EvPopen (formatter_popen (Sample.host (Sample.answer (u "a = 1" ++ [NL]) [] 0))
                      (u "a  =  1" ++ [NL]) (u "/proj"))
           :: replacement_events (Sample.view_of (u "a  =  1" ++ [NL])) (u "a = 1" ++ [NL]))).
Proof.
  apply (proj1 (proj1 (proj2
    (C1_replace_iff_trimmed_differ
       (Sample.host (Sample.answer (u "a = 1" ++ [NL]) [] 0)) Sample.file
       (Sample.state_of (u "a  =  1" ++ [NL])) (Sample.state_of (u "a  =  1" ++ [NL]))
       (u "/proj") (u "a = 1" ++ [NL]) []
       ltac:(exists (Some (u "/proj")), None; repeat split; vm_compute; reflexivity)
       ltac:(vm_compute; reflexivity)
       ltac:(exists NL; split; vm_compute; reflexivity))))).
  vm_compute. discriminate.
Defined.

(** ** C2: what [find_project] returns *)

(** C2 (the code at the failing input): for the path ["//tmp/a.ex"] on a
    host without any [mix.exs], [find_project] does not return [None]: it
    climbs to ["//"], stays there, and raises whatever depth the
    interpreter allows.  For ["/tmp/a.ex"] on the same host it returns
    [None]. *)
Theorem C2_double_slash_path_raises :
  (forall depth,
     find_project host_without_files depth (Some (u "//tmp/a.ex")) = Raise RecursionError) /\
  find_project host_without_files 64 (Some (u "/tmp/a.ex")) = Ok None.
Proof.
  split; [|vm_compute; reflexivity].
  intros depth. destruct depth as [|[|[|depth]]]; try reflexivity.
  change (find_project host_without_files (S (S (S depth))) (Some (u "//tmp/a.ex")))
    with (find_project host_without_files (S depth) (Some (u "//"))).
  apply find_project_double_slash. reflexivity.
Qed.

(** ** C3: results and their errors *)

(** C3, as the claim states it, fails: for the stderr ["**\n(E) f:1: r"] the
    full message is the whole stderr, two lines and not a line. *)
Lemma C3_full_message_spans_lines :
  error (MixFormatResult_init [] (u "**" ++ [NL] ++ u "(E) f:1: r") 1) =
    Some (MixFormatError_init (u "**" ++ [NL] ++ u "(E) f:1: r")) /\
  full_message (MixFormatError_init (u "**" ++ [NL] ++ u "(E) f:1: r")) =
    Ok (Some (u "**" ++ [NL] ++ u "(E) f:1: r")) /\
  ~ is_line_of (u "**" ++ [NL] ++ u "(E) f:1: r") (u "**" ++ [NL] ++ u "(E) f:1: r").
Proof.
  split; [reflexivity|]. split; [vm_compute; reflexivity|].
  intros (pre & rest & _ & _ & _ & H). vm_compute in H. discriminate.
Qed.

(** C3 (amended): a result is successful iff the exit code is 0; a
    successful result has no error; an unsuccessful result has the error
    built from stderr, and when the syntax-error pattern matches stderr the
    error's exception, line (the number the digits of group 3 denote) and
    reason are groups 1, 3 and 4 of the match, its status message is
    "exception - reason", and its full message is the whole matched text,
    which is one whole line of stderr when none of the three white-space
    characters the pattern matched is a line break. *)
Theorem C3_result_and_error_fields stdout stderr exit_code :
  (is_successful (MixFormatResult_init stdout stderr exit_code) = true <-> exit_code = 0) /\
  (exit_code = 0 -> error (MixFormatResult_init stdout stderr exit_code) = None) /\
  (exit_code <> 0 ->
     error (MixFormatResult_init stdout stderr exit_code) =
       Some (MixFormatError_init stderr) /\
     forall m, search SYNTAX_ERROR_RE stderr = Some m ->
       exists pre rest w1 w2 w3 g1 g2 g3 g4 n,
         syntax_error_in stderr pre rest w1 w2 w3 g1 g2 g3 g4 /\
         group m 0 = Some (syntax_error_text w1 w2 w3 g1 g2 g3 g4) /\
         group m 1 = Some g1 /\ group m 3 = Some g3 /\ group m 4 = Some g4 /\
         digits_value 0 g3 = Some n /\
         exception (MixFormatError_init stderr) = Ok (Some g1) /\
         line (MixFormatError_init stderr) = Ok n /\
         reason (MixFormatError_init stderr) = Ok (Some g4) /\
         status_message (MixFormatError_init stderr) = Ok (g1 ++ u " - " ++ g4) /\
         full_message (MixFormatError_init stderr) =
           Ok (Some (syntax_error_text w1 w2 w3 g1 g2 g3 g4)) /\
         (w1 <> NL -> w2 <> NL -> w3 <> NL ->
          is_line_of stderr (syntax_error_text w1 w2 w3 g1 g2 g3 g4))).
Proof.
  split; [apply is_successful_iff|].
  split; [intros ->; apply error_of_success|].
  intros Hc. split; [apply error_of_failure, Hc|].
  intros m Hs.
  destruct (error_fields _ _ Hs)
    as (pre & rest & w1 & w2 & w3 & g1 & g2 & g3 & g4 & n & Hin & H0 & H1 & H3 & H4 &
        _ & Hv & He & Hl & Hr & Hf & Hst).
  exists pre, rest, w1, w2, w3, g1, g2, g3, g4, n.
  repeat (split; [assumption|]).
  intros N1 N2 N3. eapply syntax_error_one_line; eassumption.
Qed.

(** ** C4: a failed formatter leaves the buffer alone *)

(** C4: when the formatter exits with a non-zero code, [run] leaves the
    buffer text as it was.  With a structured error on stderr it prints the
    full message, runs the editor's [goto_line] command with the reported
    line and sets the status message, and that is all: no call replaces
    text.  Without a structured error it raises and does nothing. *)
Theorem C4_failure_keeps_buffer
    h file_name s0 s1 project_root stdout stderr exit_code :
  reaches_formatter h file_name s0 s1 project_root ->
  formatter_answers h s0 project_root stdout stderr exit_code ->
  exit_code <> 0 ->
  v_text (view (snd (run h file_name s0))) = v_text (view s0) /\
  (search SYNTAX_ERROR_RE stderr = None ->
   run h file_name s0 =
     (Raise AttributeError,
      logged s1 (EvPopen (formatter_popen h (v_text (view s0)) project_root)))) /\
  (forall m, search SYNTAX_ERROR_RE stderr = Some m ->
   exists msg n status,
     full_message (MixFormatError_init stderr) = Ok (Some msg) /\
     line (MixFormatError_init stderr) = Ok n /\
     status_message (MixFormatError_init stderr) = Ok status /\
     v_text (moved_view h (view s0) n) = v_text (view s0) /\
     run h file_name s0 =
       (Ok tt,
        mkSt (moved_view h (view s0) n)
             (log s1 ++ EvPopen (formatter_popen h (v_text (view s0)) project_root)
                        :: report_events msg n status))).
Proof.
  intros Hr Ha Hc.
  pose proof (run_concludes _ _ _ _ _ _ _ _ Hr Ha) as Hrun.
  apply run_reaches_formatter in Hr as [_ Hv].
  assert (Hf : is_successful (MixFormatResult_init stdout stderr exit_code) = false).
  { destruct (is_successful _) eqn:E; [|reflexivity]. apply is_successful_iff in E. contradiction. }
  unfold conclude in Hrun. rewrite Hf in Hrun.
  split.
  { rewrite Hrun. destruct (report_error _ _ _) as [r s'] eqn:E.
    apply report_error_text in E. cbn [snd]. rewrite E. cbn [logged view]. rewrite Hv. reflexivity. }
  split.
  { intros Hs. rewrite Hrun. apply report_error_no_match; assumption. }
  intros m Hs.
  destruct (error_fields _ _ Hs)
    as (pre & rest & w1 & w2 & w3 & g1 & g2 & g3 & g4 & n & Hin & H0 & H1 & H3 & H4 &
        Hn & Hv' & He & Hl & Hre & Hfm & Hst).
  exists (syntax_error_text w1 w2 w3 g1 g2 g3 g4), n, (g1 ++ u " - " ++ g4).
  repeat (split; [first [assumption | reflexivity]|]).
  rewrite Hrun.
  rewrite (report_error_match h stdout stderr exit_code _ m _ g1 g3 g4 n Hc Hs H0 H1 H3 H4 Hn).
  cbn [logged view log]. rewrite Hv, <- app_assoc. reflexivity.
Qed.

(** A syntax error reported by the formatter: the buffer stays as it is. *)
Lemma C4_failure_keeps_buffer_witness :
  v_text (view (snd (run
    (Sample.host (Sample.answer [] (u "** (SyntaxError) stdin:3: unexpected token") 1))
    Sample.file (Sample.state_of (u "a = " ++ [NL]))))) = u "a = " ++ [NL].
Proof.
  apply (proj1
    (C4_failure_keeps_buffer
       (Sample.host (Sample.answer [] (u "** (SyntaxError) stdin:3: unexpected token") 1))
       Sample.file (Sample.state_of (u "a = " ++ [NL])) (Sample.state_of (u "a = " ++ [NL]))
       (u "/proj") [] (u "** (SyntaxError) stdin:3: unexpected token") 1
       ltac:(exists (Some (u "/proj")), None; repeat split; vm_compute; reflexivity)
       ltac:(vm_compute; reflexivity)
       ltac:(discriminate))).
Defined.

(** ** C5: files excluded by [.formatter.exs] *)

(** C5: when [.formatter.exs] is a file of the project root and the check
    script prints "Check result: false", [run] prints the skip message and
    returns: the check is the only process started (it is never the
    formatter's process) and the view is unchanged.  When [.formatter.exs]
    is no file of the project root, the check starts no process, answers
    [None], and [run] goes on to format the buffer. *)
Theorem C5_excluded_file_is_skipped h file_name s0 root_opt :
  find_project h (recursion_limit h) (Some file_name) = Ok root_opt ->
  let project_root := project_root_of root_opt file_name in
  let rel := file_name_rel_of project_root file_name in
  let formatter_exs := OsPath.join project_root (u ".formatter.exs") in
  (forall stdout stderr code,
     fs_isfile h formatter_exs = true ->
     communicate h (check_popen h project_root rel) = Ok (stdout, stderr, code) ->
     contains (u "Check result: false") stdout = true ->
     run h file_name s0 =
       (Ok tt, mkSt (view s0)
                    (log s0 ++ [EvPopen (check_popen h project_root rel);
                                EvPrint (skip_message rel)])) /\
     forall source_text,
       check_popen h project_root rel <> formatter_popen h source_text project_root) /\
  (fs_isfile h formatter_exs = false ->
   check_blacklisted_in_config h project_root rel s0 = (Ok None, s0) /\
   run h file_name s0 = format_buffer h project_root s0).
Proof.
  intros Hf. cbn zeta. split.
  - intros stdout stderr code Hfile Hc Hout. split.
    + unfold run, bind, lift. rewrite Hf. cbn zeta.
      rewrite check_blacklisted_spec, Hfile, Hc, Hout. cbn [is_true].
      unfold print, emit, logged. cbn [view log]. rewrite <- app_assoc. reflexivity.
    + intros source_text E. apply (f_equal p_stdin) in E.
      unfold check_popen, formatter_popen, command_popen, mix_popen in E.
      destruct (is_windows h); discriminate.
  - intros Hfile.
    assert (Hc : check_blacklisted_in_config h (project_root_of root_opt file_name)
                   (file_name_rel_of (project_root_of root_opt file_name) file_name) s0 =
                 (Ok None, s0)).
    { rewrite check_blacklisted_spec, Hfile. reflexivity. }
    split; [exact Hc|].
    unfold run, bind, lift. rewrite Hf. cbn zeta. rewrite Hc. reflexivity.
Qed.

(** A project whose [.formatter.exs] excludes the file: the check runs, the
    skip message is printed, nothing else happens. *)
Lemma C5_excluded_file_is_skipped_witness :
  run (Sample.configured (Sample.answer (u "Check result: false" ++ [NL]) [] 0))
      Sample.file (Sample.state_of (u "a  =  1" ++ [NL])) =
    (Ok tt,
     mkSt (Sample.view_of (u "a  =  1" ++ [NL]))
          [EvPopen (check_popen
                      (Sample.configured (Sample.answer (u "Check result: false" ++ [NL]) [] 0))
                      (u "/proj") (u "lib/a.ex"));
           EvPrint (skip_message (u "lib/a.ex"))]).
Proof.
  apply (proj1 (proj1
    (C5_excluded_file_is_skipped
       (Sample.configured (Sample.answer (u "Check result: false" ++ [NL]) [] 0))
       Sample.file (Sample.state_of (u "a  =  1" ++ [NL])) (Some (u "/proj"))
       ltac:(vm_compute; reflexivity))
    (u "Check result: false" ++ [NL]) [] 0
    ltac:(vm_compute; reflexivity) ltac:(vm_compute; reflexivity)
    ltac:(vm_compute; reflexivity))).
Defined.

(** ** C6: viewport and indentation after a replacement *)




(** ** C7: which saves are formatted *)



(** ** C8: the environment of the formatter process *)

(** C8, as the claim states it, fails: the settings provide a [PATH], yet
    the environment of the formatter process has no [PATH] at all, because
    the OS environment has none. *)
Lemma C8_settings_path_dropped :
  subscript (preferences host_without_path (u "env")) PATH = Ok (JStr (u "/opt/bin")) /\
  p_env (formatter_popen host_without_path (u "a") (u "/proj")) !! PATH = None.
Proof. split; vm_compute; reflexivity. Qed.

(** C8 (amended): the formatter process gets the OS environment with every
    variable but [PATH] as it is; [PATH] is the settings' [env.PATH], the
    path separator and the OS [PATH] when the settings give a string and
    the OS environment has a [PATH]; in every other case (the settings'
    [env] or its [PATH] absent or not of the right type, or no [PATH] in the
    OS environment) the environment is passed on unchanged.  The check
    script's process gets the same environment. *)
Theorem C8_formatter_environment h source_text project_root s :
  (exists r, mix_format h source_text project_root s =
             (r, logged s (EvPopen (formatter_popen h source_text project_root)))) /\
  (forall k, k <> PATH ->
     p_env (formatter_popen h source_text project_root) !! k = environ h !! k) /\
  (forall a b, path_patch h a b ->
     p_env (formatter_popen h source_text project_root) !! PATH =
       Some (a ++ pathsep h ++ b)) /\
  ((forall a b, ~ path_patch h a b) ->
     p_env (formatter_popen h source_text project_root) = environ h) /\
  (forall file_name,
     p_env (check_popen h project_root file_name) =
     p_env (formatter_popen h source_text project_root)).
Proof.
  rewrite formatter_popen_env. split.
  { rewrite mix_format_spec. cbn zeta.
    destruct (communicate h _) as [[[out err] code]|e]; eauto. }
  split.
  { intros k Hk. unfold process_environ, patched_environ.
    destruct (res_bind _ _) as [p|[]]; try reflexivity.
    apply lookup_insert_ne. congruence. }
  split.
  { intros a b H. rewrite (process_environ_patched _ _ _ H). apply lookup_insert_eq. }
  split; [apply process_environ_unpatched|].
  intros file_name. apply check_popen_env.
Qed.

(** ** C9: the error fields without a match *)


(** ** C10: whether [find_project] ends *)

(** C10 (the code at the failing input): ["//"] is an absolute path that
    [dirname] does not shorten, and on it [find_project] never reaches its
    base case: with no [//mix.exs] it raises for every depth.  From no path
    that starts with two slashes does [find_project] return [None],
    whatever the depth: [dirname] keeps the two slashes. *)
Theorem C10_double_slash_never_reaches_root :
  OsPath.dirname (u "//") = u "//" /\
  (forall h depth,
     fs_exists h (u "//mix.exs") = false ->
     find_project h depth (Some (u "//")) = Raise RecursionError) /\
  (forall p, double_slashed p -> double_slashed (OsPath.dirname p)) /\
  (forall h depth p,
     double_slashed p -> find_project h depth (Some p) <> Ok None).
Proof.
  split; [reflexivity|]. split; [apply find_project_double_slash|].
  split; [apply double_slashed_dirname | apply find_project_double_slashed].
Qed.

(** * Further properties *)

(** On an absolute path that does not start with two slashes, and with at
    least as many frames as the path has characters, [find_project] returns
    the first of the path and its parents (the root left out) that holds a
    [mix.exs], or [None] when none does. *)
Theorem find_project_returns_nearest h p depth :
  plain_absolute p -> (length p <= depth)%nat ->
  find_project h depth (Some p) = Ok (nearest_project h p).
Proof.
  intros Hp Hd. unfold nearest_project.
  apply find_project_ancestors; [exact Hp | lia | exact Hd].
Qed.

(** The project of [/proj/lib/a.ex] is [/proj]. *)
Lemma find_project_returns_nearest_witness :
  find_project (Sample.host (Sample.answer [] [] 0)) 64 (Some Sample.file) =
    Ok (Some (u "/proj")).
Proof.
  rewrite (find_project_returns_nearest (Sample.host (Sample.answer [] [] 0)) Sample.file 64
             ltac:(eexists; split; [reflexivity | discriminate])
             ltac:(vm_compute; lia)).
  vm_compute. reflexivity.
Defined.

(** [Utils.trim_trailing_ws_and_lines] removes the trailing white space of a
    text and nothing else: the result is the one text [t] such that the
    input is [t] followed by white space only and [t] does not end with
    white space. *)
Theorem trim_strips_trailing_white_space s :
  exists t,
    trim_trailing_ws_and_lines (Some s) = Some t /\
    stripped_of s t /\
    forall t', stripped_of s t' -> t' = t.
Proof.
  exists (sub TRAILING_WS_RE [] s). split; [reflexivity|].
  split; [apply sub_trailing_ws_stripped|].
  intros t' H. eapply stripped_of_unique; [exact H | apply sub_trailing_ws_stripped].
Qed.

(** [SYNTAX_ERROR_RE.search] finds a match exactly in the texts that hold a
    structured syntax error: two stars, a white-space character, a
    parenthesised non-empty text, a white-space character, a non-empty
    text, a colon, digits, a colon, a white-space character and a non-empty
    text, from a line start to a line end, no line break inside the
    texts. *)
Theorem search_matches_syntax_errors text :
  (exists m, search SYNTAX_ERROR_RE text = Some m) <-> has_syntax_error text.
Proof.
  split.
  - intros [m Hm]. apply search_syntax_error_iff. exists m. exact Hm.
  - intros H. apply search_syntax_error_iff in H as [m Hm]. exists m. exact Hm.
Qed.

(** The text of the buffer after [run], for every host, file and buffer.
    Either [run] got past the project lookup and the blacklist check, the
    formatter exited with code 0 and [is_changed] holds of its stdout and
    the buffer's text: then the text is that stdout.  Or that is so for no
    stdout: then the text is the text before the call.  An exit code of 0
    alone does not put the stdout into the buffer. *)
Theorem run_text_is_kept_or_stdout h file_name s0 :
  (exists stdout,
     formats_to h file_name (v_text (view s0)) stdout /\
     v_text (view (snd (run h file_name s0))) = stdout) \/
  ((forall stdout, ~ formats_to h file_name (v_text (view s0)) stdout) /\
   v_text (view (snd (run h file_name s0))) = v_text (view s0)).
Proof.
  destruct (decide (v_text (view (snd (run h file_name s0))) = v_text (view s0)))
    as [E|E].
  - right. split; [|exact E].
    intros stdout Hf. pose proof (formats_to_run _ _ _ _ Hf) as Ht.
    destruct Hf as (root_opt & stderr & _ & _ & _ & Hch).
    rewrite <- E, Ht, is_changed_same in Hch. discriminate.
  - left. destruct (run_changes_text _ _ _ E) as (stdout & Hf).
    exists stdout. split; [exact Hf | apply formats_to_run, Hf].
Qed.

(** What [run] lets out is a [RecursionError] of the project lookup, the
    exception of a process that could not be run, or the [AttributeError] of
    a failed formatter whose stderr holds no structured error. *)
Theorem run_raises_only h file_name s0 e s' :
  run h file_name s0 = (Raise e, s') ->
  (e = RecursionError /\ s' = s0 /\
   find_project h (recursion_limit h) (Some file_name) = Raise RecursionError) \/
  (exists p, communicate h p = Raise e /\ last (log s') = Some (EvPopen p)) \/
  (e = AttributeError /\
   exists root stdout stderr code,
     formatter_answers h s0 root stdout stderr code /\ code <> 0 /\
     ~ has_syntax_error stderr).
Proof.
  intros Hrun. destruct (run_outcome_holds h file_name s0); try discriminate;
    injection Hrun as <- <-.
  - left. auto.
  - right. left. eexists. split; [eassumption|]. cbn [logged log]. apply last_snoc.
  - right. left. eexists. split; [eassumption|]. cbn [logged log]. apply last_snoc.
  - right. right. split; [reflexivity|]. exists root, stdout, stderr, code.
    repeat split; try assumption. apply no_match_iff. assumption.
Qed.

(** A formatter that cannot be started: [run] lets the exception out. *)
Lemma run_raises_only_witness :
  exists p, communicate (Sample.host (fun _ => Raise KeyError)) p = Raise KeyError.
Proof.
  destruct (run_raises_only (Sample.host (fun _ => Raise KeyError)) Sample.file
              (Sample.state_of (u "a")) KeyError
              (logged (Sample.state_of (u "a"))
                 (EvPopen (formatter_popen (Sample.host (fun _ => Raise KeyError))
                             (u "a") (u "/proj"))))
              ltac:(vm_compute; reflexivity))
    as [(H & _)|[(p & H & _)|(H & _)]].
  - discriminate H.
  - exists p. exact H.
  - discriminate H.
Defined.

(** The processes [run] starts, in their order: none when the project
    lookup raises; otherwise the blacklist check if [.formatter.exs] is a
    file of the project root, and then the formatter if the check let the
    file through.  No other process is started, and the events logged before
    the call stay. *)
Theorem run_processes h file_name s0 :
  exists evs,
    log (snd (run h file_name s0)) = log s0 ++ evs /\
    popens evs =
      match find_project h (recursion_limit h) (Some file_name) with
      | Raise _ => []
      | Ok root_opt =>
          let root := project_root_of root_opt file_name in
          let rel := file_name_rel_of root file_name in
          check_processes h root rel ++
          (if check_passes h root rel
           then [formatter_popen h (v_text (view s0)) root] else [])
      end.
Proof.
  assert (Hreach : forall s1 root tail,
    reaches_formatter h file_name s0 s1 root ->
    popens tail = [] ->
    exists evs,
      log s1 ++ EvPopen (formatter_popen h (v_text (view s0)) root) :: tail =
        log s0 ++ evs /\
      popens evs =
        match find_project h (recursion_limit h) (Some file_name) with
        | Raise _ => []
        | Ok root_opt =>
            let root := project_root_of root_opt file_name in
            let rel := file_name_rel_of root file_name in
            check_processes h root rel ++
            (if check_passes h root rel
             then [formatter_popen h (v_text (view s0)) root] else [])
        end).
  { intros s1 root tail Hr Ht.
    apply reaches_formatter_iff in Hr as (root_opt & Hf & -> & Hp & ->).
    rewrite Hf. cbn zeta. rewrite Hp. cbn [log]. rewrite <- app_assoc.
    eexists. split; [reflexivity|].
    rewrite popens_app, popens_map.
    change (popens (EvPopen (formatter_popen h (v_text (view s0))
                               (project_root_of root_opt file_name)) :: tail))
      with (formatter_popen h (v_text (view s0)) (project_root_of root_opt file_name)
              :: popens tail).
    rewrite Ht. reflexivity. }
  destruct (run_outcome_holds h file_name s0); cbn [snd logged log];
    try (apply Hreach; [assumption | reflexivity]);
    try (change (log s1 ++
                 [EvPopen (formatter_popen h (v_text (view s0)) root)])
           with (log s1 ++
                 EvPopen (formatter_popen h (v_text (view s0)) root) :: []);
         apply Hreach; [assumption | reflexivity]).
  - exists []. rewrite app_nil_r. split; [reflexivity|].
    match goal with H : find_project _ _ _ = _ |- _ => rewrite H end. reflexivity.
  - eexists. split; [reflexivity|].
    match goal with H : find_project _ _ _ = _ |- _ => rewrite H end. cbn zeta.
    fold root. unfold check_processes, check_passes.
    match goal with H : fs_isfile _ _ = _ |- _ => rewrite H end.
    fold check.
    match goal with H : communicate _ _ = _ |- _ => rewrite H end. reflexivity.
  - eexists. split; [reflexivity|].
    match goal with H : find_project _ _ _ = _ |- _ => rewrite H end. cbn zeta.
    fold root. fold rel. unfold check_processes, check_passes.
    match goal with H : fs_isfile _ _ = _ |- _ => rewrite H end.
    fold check.
    match goal with H : communicate _ _ = _ |- _ => rewrite H end.
    match goal with H : contains _ _ = _ |- _ => rewrite H end. reflexivity.
Qed.

(** A buffer that does not end in white space is never rewritten,
    whatever the formatter prints. *)
Theorem run_keeps_text_without_trailing_space h file_name s0 :
  ~ ends_with_space (v_text (view s0)) ->
  v_text (view (snd (run h file_name s0))) = v_text (view s0).
Proof.
  intros Hn.
  destruct (decide (v_text (view (snd (run h file_name s0))) = v_text (view s0)))
    as [E|E]; [exact E|].
  apply run_changes_text in E as (stdout & root_opt & stderr & _ & _ & _ & Hch).
  apply is_changed_iff in Hch as [He _]. contradiction.
Qed.

(** The buffer [a  =  1] has no final line break: it stays as it is though
    the formatter prints [a = 1]. *)
Lemma run_keeps_text_without_trailing_space_witness :
  v_text (view (snd (run (Sample.host (Sample.answer (u "a = 1" ++ [NL]) [] 0))
                         Sample.file (Sample.state_of (u "a  =  1"))))) = u "a  =  1".
Proof.
  apply (run_keeps_text_without_trailing_space
           (Sample.host (Sample.answer (u "a = 1" ++ [NL]) [] 0))
           Sample.file (Sample.state_of (u "a  =  1"))).
  intros (c & Hl & Hs). vm_compute in Hl. injection Hl as <-. vm_compute in Hs.
  discriminate.
Defined.

(** With a formatter that leaves its own output as it is, a second [run]
    right after the first never changes the buffer. *)
Theorem run_twice_keeps_text h file_name s0 :
  idempotent_formatter h ->
  v_text (view (snd (run h file_name (snd (run h file_name s0))))) =
  v_text (view (snd (run h file_name s0))).
Proof.
  intros Hid. set (s' := snd (run h file_name s0)).
  destruct (decide (v_text (view (snd (run h file_name s'))) = v_text (view s')))
    as [E|E]; [exact E|].
  exfalso.
  apply run_changes_text in E as (out2 & root_opt & err2 & Hf & Hp & Hc & Hch).
  destruct (decide (v_text (view s') = v_text (view s0))) as [E0|E0].
  - (* the first run kept the text: it would have used the same output *)
    rewrite E0 in Hc, Hch.
    assert (Hfmt : formats_to h file_name (v_text (view s0)) out2)
      by (exists root_opt, err2; auto).
    apply formats_to_run in Hfmt. fold s' in Hfmt. rewrite E0 in Hfmt.
    rewrite Hfmt in Hch. rewrite is_changed_same in Hch. discriminate.
  - (* the first run wrote the formatter's output *)
    unfold s' in E0.
    destruct (run_changes_text _ _ _ E0) as (out1 & Hfmt).
    pose proof (formats_to_run _ _ _ _ Hfmt) as Ht. fold s' in Ht.
    destruct Hfmt as (root_opt1 & err1 & Hf1 & _ & Hc1 & _).
    assert (root_opt1 = root_opt) as -> by congruence.
    destruct (Hid _ _ _ _ Hc1) as (err' & Hc').
    rewrite Ht in Hc, Hch. rewrite Hc' in Hc. injection Hc as <- <-.
    rewrite is_changed_same in Hch. discriminate.
Qed.

(** The formatter of the sample host prints [a = 1] whatever it reads. *)
Lemma run_twice_keeps_text_witness :
  v_text (view (snd (run (Sample.host (Sample.answer (u "a = 1" ++ [NL]) [] 0)) Sample.file
    (snd (run (Sample.host (Sample.answer (u "a = 1" ++ [NL]) [] 0)) Sample.file
              (Sample.state_of (u "a  =  1" ++ [NL]))))))) =
  v_text (view (snd (run (Sample.host (Sample.answer (u "a = 1" ++ [NL]) [] 0)) Sample.file
                         (Sample.state_of (u "a  =  1" ++ [NL]))))).
Proof.
  apply (run_twice_keeps_text (Sample.host (Sample.answer (u "a = 1" ++ [NL]) [] 0))
           Sample.file (Sample.state_of (u "a  =  1" ++ [NL]))).
  intros source_text project_root stdout stderr H. exists stderr. exact H.
Defined.

(** What [find_project] returns is a directory that holds a [mix.exs]
    and is not the root; it is the start directory cut at its end, or, when
    the walk came to the empty path of a relative start, the working
    directory cut at its end. *)
Theorem find_project_returns_project h depth cwd d :
  find_project h depth cwd = Ok (Some d) ->
  fs_exists h (OsPath.join d (u "mix.exs")) = true /\
  d <> OsPath.realpath_root /\
  (d `prefix_of` or_else cwd (getcwd h) \/ d `prefix_of` getcwd h).
Proof.
  revert cwd d.
  induction depth as [|depth IH]; intros cwd d; [discriminate|].
  cbn [find_project]. cbn zeta.
  set (p := or_else cwd (getcwd h)).
  destruct (str_eqb p OsPath.realpath_root) eqn:Er; [discriminate|].
  destruct (fs_exists h (OsPath.join p (u "mix.exs"))) eqn:Ex.
  - intros [= <-]. split; [exact Ex|]. split.
    + apply bool_decide_eq_false in Er. exact Er.
    + left. reflexivity.
  - intros H. apply IH in H as (H1 & H2 & H3). split; [exact H1|]. split; [exact H2|].
    destruct H3 as [H3|H3]; [|right; exact H3].
    destruct (OsPath.dirname p) as [|x r] eqn:Ed.
    + right. exact H3.
    + left. cbn [or_else] in H3. etransitivity; [exact H3|].
      rewrite <- Ed. apply dirname_prefix.
Qed.

(** The project of [/proj/lib/a.ex] holds [/proj/mix.exs]. *)
Lemma find_project_returns_project_witness :
  fs_exists (Sample.host (Sample.answer [] [] 0))
    (OsPath.join (u "/proj") (u "mix.exs")) = true.
Proof.
  apply (find_project_returns_project (Sample.host (Sample.answer [] [] 0)) 64
           (Some Sample.file) (u "/proj")).
  vm_compute. reflexivity.
Defined.

(** For a file with an absolute name, the directory the check and the
    formatter run in is an absolute path and the file name cut at its end,
    whether it comes from [find_project] or from [dirname]. *)
Theorem project_root_is_above_file h file_name root_opt :
  head file_name = Some SLASH ->
  find_project h (recursion_limit h) (Some file_name) = Ok root_opt ->
  let root := project_root_of root_opt file_name in
  root `prefix_of` file_name /\ head root = Some SLASH /\
  (forall source_text, p_cwd (formatter_popen h source_text root) = root) /\
  (forall rel, p_cwd (check_popen h root rel) = root).
Proof.
  intros Hp Hf. cbn zeta.
  assert (H : project_root_of root_opt file_name `prefix_of` file_name /\
              head (project_root_of root_opt file_name) = Some SLASH).
  { destruct root_opt as [d|].
    - destruct (find_project_found_absolute _ _ _ _ Hp Hf) as [H1 H2].
      unfold project_root_of. rewrite (or_else_absolute _ _ H2). auto.
    - unfold project_root_of. cbn [or_else].
      split; [apply dirname_prefix | apply dirname_absolute, Hp]. }
  destruct H as [H1 H2]. split; [exact H1|]. split; [exact H2|].
  split.
  - intros source_text. unfold formatter_popen, mix_popen.
    destruct (is_windows h); reflexivity.
  - intros rel. unfold check_popen, command_popen.
    destruct (is_windows h); reflexivity.
Qed.

(** The formatter of [/proj/lib/a.ex] runs in [/proj]. *)
Lemma project_root_is_above_file_witness :
  u "/proj" `prefix_of` Sample.file.
Proof.
  apply (project_root_is_above_file (Sample.host (Sample.answer [] [] 0)) Sample.file
           (Some (u "/proj")) eq_refl ltac:(vm_compute; reflexivity)).
Defined.

(** An answer of [find_project] does not depend on the recursion limit:
    with more frames the call returns the same. *)
Theorem find_project_more_frames h depth depth' cwd r :
  find_project h depth cwd = Ok r -> (depth <= depth')%nat ->
  find_project h depth' cwd = Ok r.
Proof.
  revert depth' cwd. induction depth as [|depth IH]; intros depth' cwd; [discriminate|].
  intros H Hd. destruct depth' as [|depth']; [lia|].
  cbn [find_project] in *. cbn zeta in *.
  destruct (str_eqb _ _); [exact H|].
  destruct (fs_exists h _); [exact H|].
  apply IH; [exact H | lia].
Qed.

(** Sixty-four frames or a thousand: the project of [/proj/lib/a.ex] is
    [/proj]. *)
Lemma find_project_more_frames_witness :
  find_project (Sample.host (Sample.answer [] [] 0)) 1000 (Some Sample.file) =
    Ok (Some (u "/proj")).
Proof.
  apply (find_project_more_frames (Sample.host (Sample.answer [] [] 0)) 64 1000
           (Some Sample.file) (Some (u "/proj"))).
  - vm_compute. reflexivity.
  - lia.
Defined.

(** The name [run] gives the check script and the skip message, for a
    file below the project root: the part of the file name behind the root
    and its slash, with every further occurrence of the root and its slash
    cut out; it is that part as it is when the root and its slash do not
    occur in it. *)
Theorem file_name_rel_below_root root rest :
  file_name_rel_of root (root ++ SLASH :: rest) = replace (root ++ u "/") [] rest /\
  (contains (root ++ u "/") rest = false ->
   file_name_rel_of root (root ++ SLASH :: rest) = rest) /\
  file_name_rel_of (u "/p") (u "/p/x/p/y.ex") = u "xy.ex".
Proof.
  assert (Hne : root ++ u "/" <> []) by (destruct root; discriminate).
  assert (E : file_name_rel_of root (root ++ SLASH :: rest) =
              replace (root ++ u "/") [] rest).
  { unfold file_name_rel_of.
    change (root ++ SLASH :: rest) with (root ++ u "/" ++ rest).
    rewrite app_assoc, (replace_at_start _ _ _ Hne). reflexivity. }
  split; [exact E|]. split; [|vm_compute; reflexivity].
  intros Hc. rewrite E. apply replace_absent; assumption.
Qed.

(** The check script is the template with the file name put between the
    double quotes of its first line, once and as it is: no character of the
    name is escaped, so a name with a double quote ends the Elixir string
    early; and two names give the same script only if they are the same. *)
Theorem check_script_pastes_file_name :
  (forall file_name,
     check_script file_name = check_script_head ++ file_name ++ check_script_tail) /\
  (forall f g, check_script f = check_script g -> f = g) /\
  (forall h root file_name,
     In (check_script_head ++ file_name ++ check_script_tail)
        (p_args (check_popen h root file_name))).
Proof.
  assert (E : forall file_name,
     check_script file_name = check_script_head ++ file_name ++ check_script_tail).
  { intros file_name. unfold check_script, check_blacklisted_script_template.
    change (replace (u "[[file]]") file_name
              (check_script_head ++ u "[[file]]" ++ check_script_tail) =
            check_script_head ++ file_name ++ check_script_tail).
    vm_compute. reflexivity. }
  split; [exact E|]. split.
  - intros f g H. rewrite !E in H. apply app_inv_head in H. apply app_inv_tail in H.
    exact H.
  - intros h root file_name. rewrite <- E. unfold check_popen, command_popen.
    destruct (is_windows h); cbn [p_args app].
    + do 4 right. left. reflexivity.
    + do 2 right. left. reflexivity.
Qed.

(** The extension the command looks at.  A path has the non-empty
    extension [ext] exactly when its file name (the part behind the last
    slash) is a name that is not made of dots only, a dot, and [ext], and
    [ext] has no dot.  So [a.ex] and [lib/.a.ex] have the extension [ex];
    [.ex], [..ex] and [lib.ex/a] have none. *)
Theorem extension_of_iff p ext :
  ext <> [] ->
  (extension_of p = ext <->
   exists dir name,
     p = dir ++ name ++ DOT :: ext /\
     (dir = [] \/ last dir = Some SLASH) /\ ~ In SLASH name /\ ~ In SLASH ext /\
     ~ In DOT ext /\ OsPath.has_non_dot name = true).
Proof.
  intros Hne. unfold extension_of. split.
  - intros H. destruct (snd (OsPath.splitext p)) as [|y e] eqn:E.
    { change ([] = ext) in H. congruence. }
    change (e = ext) in H. subst e. destruct (splitext_ext_inv _ _ _ E) as (-> & dir & name & Hd).
    exists dir, name. exact Hd.
  - intros (dir & name & -> & Hdir & Hname & Hext & Hdot & Hnd).
    rewrite (splitext_name_ext _ _ _ Hdir Hname Hext Hdot Hnd). reflexivity.
Qed.

(** The extension of [/proj/lib/a.ex] is [ex]. *)
Lemma extension_of_iff_witness : extension_of (u "/proj/lib/a.ex") = u "ex".
Proof.
  apply (extension_of_iff (u "/proj/lib/a.ex") (u "ex") ltac:(discriminate)).
  exists (u "/proj/lib/"), (u "a"). split; [reflexivity|].
  split; [right; reflexivity|].
  repeat split; try reflexivity; vm_compute; intuition discriminate.
Defined.

(** Of the structured syntax errors of a text, [SYNTAX_ERROR_RE.search]
    reports the first: the match starts where a structured error starts,
    and no structured error of the text starts before it. *)
Theorem search_reports_first_error text m :
  search SYNTAX_ERROR_RE text = Some m ->
  (exists pre rest w1 w2 w3 g1 g2 g3 g4,
     syntax_error_in text pre rest w1 w2 w3 g1 g2 g3 g4 /\
     m_start m = length pre /\
     group m 0 = Some (syntax_error_text w1 w2 w3 g1 g2 g3 g4)) /\
  (forall pre rest w1 w2 w3 g1 g2 g3 g4,
     syntax_error_in text pre rest w1 w2 w3 g1 g2 g3 g4 ->
     (m_start m <= length pre)%nat).
Proof.
  intros H. split.
  - pose proof H as H'. unfold search in H'.
    apply (search_from_sound _ text text [] m eq_refl) in H'
      as (pre & t & rest & Htext & Hstr & Hstart & Hend & D).
    apply den_syntax_error in D as (w1 & w2 & w3 & g1 & g2 & g3 & g4 & -> & Hparts & _).
    exists pre, rest, w1, w2, w3, g1, g2, g3, g4.
    split; [split; assumption|]. split; [exact Hstart|].
    unfold group. rewrite Hstr, Hstart, Hend. f_equal.
    rewrite Htext at 1. apply slice_middle; reflexivity.
  - intros pre rest w1 w2 w3 g1 g2 g3 g4 [Htext Hparts].
    unfold search in H. rewrite Htext in H at 2.
    apply (search_from_leftmost SYNTAX_ERROR_RE text pre []
             (syntax_error_text w1 w2 w3 g1 g2 g3 g4) rest
             (syntax_error_marks (length pre) g1 g2 g3 g4 ++ []) m); [|exact H].
    apply den_syntax_error. exists w1, w2, w3, g1, g2, g3, g4. auto.
Qed.

(** The first of two errors is the one reported. *)
Lemma search_reports_first_error_witness :
  exists m,
    search SYNTAX_ERROR_RE
      (u "** (A) f:1: x" ++ [NL] ++ u "** (B) g:2: y") = Some m /\
    group m 1 = Some (u "A") /\
    forall pre rest w1 w2 w3 g1 g2 g3 g4,
      syntax_error_in (u "** (A) f:1: x" ++ [NL] ++ u "** (B) g:2: y")
        pre rest w1 w2 w3 g1 g2 g3 g4 ->
      (m_start m <= length pre)%nat.
Proof.
  eexists. split; [vm_compute; reflexivity|]. split; [vm_compute; reflexivity|].
  apply (search_reports_first_error
           (u "** (A) f:1: x" ++ [NL] ++ u "** (B) g:2: y") _
           ltac:(vm_compute; reflexivity)).
Defined.

(** Where one line can be read as a structured error in several ways,
    [SYNTAX_ERROR_RE.search] reports the reading with the longest exception
    (group 1) and, with that exception, the longest file (group 2): the
    line number is taken behind the last colon that digits, a colon and a
    white-space character follow. *)
Theorem search_takes_longest_groups text m g1 g2 :
  search SYNTAX_ERROR_RE text = Some m ->
  group m 1 = Some g1 -> group m 2 = Some g2 ->
  forall pre rest w1 w2 w3 g1' g2' g3' g4',
    syntax_error_in text pre rest w1 w2 w3 g1' g2' g3' g4' ->
    length pre = m_start m ->
    (length g1' <= length g1)%nat /\
    (length g1' = length g1 -> (length g2' <= length g2)%nat).
Proof.
  intros H H1 H2 pre rest w1 w2 w3 g1' g2' g3' g4' Hin Hpre.
  destruct (search_syntax_error_greedy _ _ H)
    as (pre0 & rest0 & v1 & v2 & v3 & k1 & k2 & k3 & k4 & Hin0 & Hstart & E1 & E2 & Hmax).
  assert (k1 = g1) as -> by congruence.
  assert (k2 = g2) as -> by congruence.
  assert (pre = pre0) as ->.
  { pose proof (proj1 Hin) as Ht. rewrite (proj1 Hin0) in Ht.
    assert (Hlen : length pre0 = length pre) by congruence.
    apply (app_inj_1 _ _ _ _ Hlen) in Ht as [-> _]. reflexivity. }
  eapply Hmax, Hin.
Qed.

(** The line [** (E) a:1: b:2: c] has two readings: the file is [a:1: b]
    and the line 2 in the reported one. *)
Lemma search_takes_longest_groups_witness :
  exists m,
    search SYNTAX_ERROR_RE (u "** (E) a:1: b:2: c") = Some m /\
    group m 2 = Some (u "a:1: b") /\ group m 3 = Some (u "2") /\
    (length (u "a") <= length (u "a:1: b"))%nat.
Proof.
  eexists. split; [vm_compute; reflexivity|]. split; [vm_compute; reflexivity|].
  split; [vm_compute; reflexivity|].
  refine (proj2 (search_takes_longest_groups (u "** (E) a:1: b:2: c") _ (u "E") (u "a:1: b")
                   ltac:(vm_compute; reflexivity) ltac:(vm_compute; reflexivity)
                   ltac:(vm_compute; reflexivity)
                   [] [] 32%N 32%N 32%N (u "E") (u "a") (u "1") (u "b:2: c") _ eq_refl)
                eq_refl).
  split; [reflexivity|].
  unfold syntax_error_parts, line_piece, digit_run.
  repeat split; try reflexivity; discriminate.
Defined.
